(** * MD5 and SHA-256 student implementations: padding and compression

    A shallow embedding of the three C programs of the repository

    - [Program/md5.c]                                   (module [Program_md5]),
    - [Video_Code/Finalizing_Padding/Finalizing_padding.c]
                                                        (module [Finalizing_padding]),
    - the loop-based MD5 file                           (module [Part_000]),

    followed by the properties of their padders and compression functions.

    Conventions.  A [uint32_t] is a [Z] in [0, 2^32) and every operation
    that can overflow is wrapped explicitly; a [uint64_t] likewise with
    [2^64].  A byte is a [Z] in [0, 256).  The [union block] is a list of
    64 bytes; its [threetwo] and [sixfour] views are obtained by decoding
    bytes in the byte order of the host, which is a parameter [host] of
    every function that uses the union. *)

From Stdlib Require Import ZArith Lia ZifyNat Bool String Ascii List.
Import ListNotations.
Open Scope Z_scope.

(** ** Machine words *)

Definition wrap32 (x : Z) : Z := x mod 2 ^ 32.
Definition wrap64 (x : Z) : Z := x mod 2 ^ 64.

(* x + y, x << n, x >> n and ~x on uint32_t *)
Definition add32 (x y : Z) : Z := wrap32 (x + y).
Definition shl32 (x n : Z) : Z := wrap32 (Z.shiftl x n).
Definition shr32 (x n : Z) : Z := Z.shiftr x n.
Definition not32 (x : Z) : Z := wrap32 (Z.lnot x).

(** ** Bytes and byte order *)

Inductive endianness := LittleEndian | BigEndian.

Fixpoint le_decode (bs : list Z) : Z :=
  match bs with
  | [] => 0
  | b :: bs' => b + 256 * le_decode bs'
  end.

Fixpoint le_encode (n : nat) (v : Z) : list Z :=
  match n with
  | O => []
  | S n' => v mod 256 :: le_encode n' (v / 256)
  end.

Definition decode (e : endianness) (bs : list Z) : Z :=
  match e with
  | LittleEndian => le_decode bs
  | BigEndian => le_decode (rev bs)
  end.

Definition encode (e : endianness) (n : nat) (v : Z) : list Z :=
  match e with
  | LittleEndian => le_encode n v
  | BigEndian => rev (le_encode n v)
  end.

(** ** Arrays *)

(* l[i] for an index that is in range *)
Definition sel (l : list Z) (i : nat) : Z := nth i l 0.

(* l[i] = v; an index past the end leaves the list as it is (the programs
   never store out of range) *)
Fixpoint upd {A : Type} (i : nat) (v : A) (l : list A) : list A :=
  match l, i with
  | [], _ => []
  | _ :: l', O => v :: l'
  | x :: l', S i' => x :: upd i' v l'
  end.

(* for (i = lo; i < hi; i++) body *)
Definition for_range {A : Type} (lo hi : nat) (body : nat -> A -> A) (a : A) : A :=
  fold_left (fun acc i => body i acc) (seq lo (hi - lo)) a.

(** ** The 64-byte block union

    [M->eight] is the list itself, [M->threetwo[k]] the 32-bit word in
    bytes [4k .. 4k+3] and [M->sixfour[k]] the 64-bit word in bytes
    [8k .. 8k+7], both in the byte order of the host. *)

Definition threetwo (host : endianness) (M : list Z) (k : nat) : Z :=
  decode host (firstn 4 (skipn (4 * k) M)).

Definition set_sixfour (host : endianness) (M : list Z) (k : nat) (v : Z) : list Z :=
  firstn (8 * k) M ++ encode host 8 v ++ skipn (8 * k + 8) M.

(* a block declared without initialiser: 64 bytes of whatever the stack
   holds, given by [garbage] *)
Definition uninit (garbage : nat -> Z) : list Z := map garbage (seq 0 64).

(** ** Files and the padder state

    The input file is the list of bytes not read yet.  [fread (buf, 1,
    count, file)] copies the next [min count (length file)] bytes to the
    front of [buf] and returns how many it copied. *)

Definition fread (buf : list Z) (count : nat) (file : list Z) : nat * list Z * list Z :=
  let n := Nat.min count (length file) in
  (n, firstn n file ++ skipn n buf, skipn n file).

(* the four objects every padder receives by pointer *)
Record io (flag : Type) := mkIO {
  M : list Z;
  infile : list Z;
  nobits : Z;
  status : flag
}.
Arguments mkIO {flag} _ _ _ _.
Arguments M {flag} _.
Arguments infile {flag} _.
Arguments nobits {flag} _.
Arguments status {flag} _.

(* while (next(&M, infile, &nobits, &status)) { body(&M, acc); }
   The loop is cut after [fuel] calls of [next]. *)
Fixpoint while_blocks {flag A : Type} (next : io flag -> Z * io flag)
    (body : list Z -> A -> A) (fuel : nat) (st : io flag) (acc : A)
    : option (A * io flag) :=
  match fuel with
  | O => None
  | S fuel' =>
      let (r, st') := next st in
      if r =? 0 then Some (acc, st')
      else while_blocks next body fuel' st' (body (M st') acc)
  end.

(* calls of the padder that suffice for a file: one per full block, at
   most two padding blocks, and the call that returns 0 *)
Definition fuel_for (data : list Z) : nat := (length data / 64 + 3)%nat.

(* the loop body that records the blocks handed to the hash *)
Definition collect (blk : list Z) (acc : list (list Z)) : list (list Z) := acc ++ [blk].

(** ** printf *)

Definition hex_digit (upper : bool) (d : Z) : ascii :=
  nth (Z.to_nat d)
    (list_ascii_of_string (if upper then "0123456789ABCDEF" else "0123456789abcdef"))
    "0"%char.

Fixpoint hex_of (upper : bool) (fuel : nat) (v : Z) (acc : string) : string :=
  match fuel with
  | O => acc
  | S fuel' =>
      let acc' := String (hex_digit upper (v mod 16)) acc in
      if v / 16 =? 0 then acc' else hex_of upper fuel' (v / 16) acc'
  end.

Fixpoint zeros (n : nat) : string :=
  match n with
  | O => EmptyString
  | S n' => String "0"%char (zeros n')
  end.

(* the conversions "%02x" and "%02X" of a uint32_t: at least two digits *)
Definition printf_02x (upper : bool) (v : Z) : string :=
  let s := hex_of upper 8 v EmptyString in
  (zeros (2 - String.length s) ++ s)%string.

Definition newline : string := String (ascii_of_nat 10) EmptyString.

(** ** The loop-based MD5 file *)

Module Part_000.

Definition ROTL (x n : Z) : Z := Z.lor (shl32 x n) (shr32 x (32 - n)).

Definition F (x y z : Z) : Z := Z.lor (Z.land x y) (Z.land (not32 x) z).
Definition G (x y z : Z) : Z := Z.lor (Z.land x z) (Z.land y (not32 z)).
Definition H (x y z : Z) : Z := Z.lxor (Z.lxor x y) z.
Definition I (x y z : Z) : Z := Z.lxor y (Z.lor x (not32 z)).

(* FF(a,b,c,d,m,s,t) { a += F(b,c,d) + m + t; a = b + ROTL(a,s); }
   where a, b, c, d are the lvalues H[ia], H[ib], H[ic], H[id] *)
Definition transform (f : Z -> Z -> Z -> Z) (ia ib ic id : nat) (m s t : Z)
    (Hs : list Z) : list Z :=
  let Hs := upd ia (add32 (sel Hs ia)
                      (add32 (add32 (f (sel Hs ib) (sel Hs ic) (sel Hs id)) m) t)) Hs in
  upd ia (add32 (sel Hs ib) (ROTL (sel Hs ia) s)) Hs.

Definition FF := transform F.
Definition GG := transform G.
Definition HH := transform H.
Definition II := transform I.

Definition AA : list nat := [
  0; 3; 2; 1; 0; 3; 2; 1; 0; 3; 2; 1; 0; 3; 2; 1;
  0; 3; 2; 1; 0; 3; 2; 1; 0; 3; 2; 1; 0; 3; 2; 1;
  0; 3; 2; 1; 0; 3; 2; 1; 0; 3; 2; 1; 0; 3; 2; 1;
  0; 3; 2; 1; 0; 3; 2; 1; 0; 3; 2; 1; 0; 3; 2; 1 ]%nat.

Definition BB : list nat := [
  1; 0; 3; 2; 1; 0; 3; 2; 1; 0; 3; 2; 1; 0; 3; 2;
  1; 0; 3; 2; 1; 0; 3; 2; 1; 0; 3; 2; 1; 0; 3; 2;
  1; 0; 3; 2; 1; 0; 3; 2; 1; 0; 3; 2; 1; 0; 3; 2;
  1; 0; 3; 2; 1; 0; 3; 2; 1; 0; 3; 2; 1; 0; 3; 2 ]%nat.

Definition CC : list nat := [
  2; 1; 0; 3; 2; 1; 0; 3; 2; 1; 0; 3; 2; 1; 0; 3;
  2; 1; 0; 3; 2; 1; 0; 3; 2; 1; 0; 3; 2; 1; 0; 3;
  2; 1; 0; 3; 2; 1; 0; 3; 2; 1; 0; 3; 2; 1; 0; 3;
  2; 1; 0; 3; 2; 1; 0; 3; 2; 1; 0; 3; 2; 1; 0; 3 ]%nat.

Definition DD : list nat := [
  3; 2; 1; 0; 3; 2; 1; 0; 3; 2; 1; 0; 3; 2; 1; 0;
  3; 2; 1; 0; 3; 2; 1; 0; 3; 2; 1; 0; 3; 2; 1; 0;
  3; 2; 1; 0; 3; 2; 1; 0; 3; 2; 1; 0; 3; 2; 1; 0;
  3; 2; 1; 0; 3; 2; 1; 0; 3; 2; 1; 0; 3; 2; 1; 0 ]%nat.

Definition MM : list nat := [
  0; 1;  2;  3;  4;  5;  6;  7;  8;  9; 10; 11; 12; 13; 14; 15;
  1; 6; 11;  0;  5; 10; 15;  4;  9; 14;  3;  8; 13;  2;  7; 12;
  5; 8; 11; 14;  1;  4;  7; 10; 13;  0;  3;  6;  9; 12; 15;  2;
  0; 7; 14;  5; 12;  3; 10;  1;  8; 15;  6; 13;  4; 11;  2;  9 ]%nat.

Definition S : list Z := [
  7; 12; 17; 22; 7; 12; 17; 22; 7; 12; 17; 22; 7; 12; 17; 22;
  5;  9; 14; 20; 5;  9; 14; 20; 5;  9; 14; 20; 5;  9; 14; 20;
  4; 11; 16; 23; 4; 11; 16; 23; 4; 11; 16; 23; 4; 11; 16; 23;
  6; 10; 15; 21; 6; 10; 15; 21; 6; 10; 15; 21; 6; 10; 15; 21 ].

Definition T : list Z := [
  0xd76aa478; 0xe8c7b756; 0x242070db; 0xc1bdceee;
  0xf57c0faf; 0x4787c62a; 0xa8304613; 0xfd469501;
  0x698098d8; 0x8b44f7af; 0xffff5bb1; 0x895cd7be;
  0x6b901122; 0xfd987193; 0xa679438e; 0x49b40821;
  0xf61e2562; 0xc040b340; 0x265e5a51; 0xe9b6c7aa;
  0xd62f105d; 0x02441453; 0xd8a1e681; 0xe7d3fbc8;
  0x21e1cde6; 0xc33707d6; 0xf4d50d87; 0x455a14ed;
  0xa9e3e905; 0xfcefa3f8; 0x676f02d9; 0x8d2a4c8a;
  0xfffa3942; 0x8771f681; 0x6d9d6122; 0xfde5380c;
  0xa4beea44; 0x4bdecfa9; 0xf6bb4b60; 0xbebfbc70;
  0x289b7ec6; 0xeaa127fa; 0xd4ef3085; 0x04881d05;
  0xd9d4d039; 0xe6db99e5; 0x1fa27cf8; 0xc4ac5665;
  0xf4292244; 0x432aff97; 0xab9423a7; 0xfc93a039;
  0x655b59c3; 0x8f0ccc92; 0xffeff47d; 0x85845dd1;
  0x6fa87e4f; 0xfe2ce6e0; 0xa3014314; 0x4e0811a1;
  0xf7537e82; 0xbd3af235; 0x2ad7d2bb; 0xeb86d391 ].

Definition A : Z := 0x67452301.
Definition B : Z := 0xefcdab89.
Definition C : Z := 0x98badcfe.
Definition D : Z := 0x10325476.

Inductive PADFLAG := READ | PAD0 | FINISH.

(* one iteration of the loop of md5, for loop counter i *)
Definition round (host : endianness) (blk : list Z) (i : nat) (Hs : list Z) : list Z :=
  let args (tr : nat -> nat -> nat -> nat -> Z -> Z -> Z -> list Z -> list Z) :=
    tr (nth i AA O) (nth i BB O) (nth i CC O) (nth i DD O)
       (threetwo host blk (nth i MM O)) (sel S i) (sel T i) Hs in
  if (i <? 16)%nat then args FF
  else if (i <? 32)%nat then args GG
  else if (i <? 48)%nat then args HH
  else args II.

(* the four hash rounds, in place on H *)
Definition rounds (host : endianness) (blk : list Z) (Hs : list Z) : list Z :=
  for_range 0 64 (round host blk) Hs.

(* void md5(BLOCK *M, WORD *H): the contents of H on return *)
Definition md5 (host : endianness) (blk : list Z) (Hs : list Z) : list Z :=
  let a := sel Hs 0 in
  let b := sel Hs 1 in
  let c := sel Hs 2 in
  let d := sel Hs 3 in
  let Hs := rounds host blk Hs in
  let Hs := upd 0 (add32 (sel Hs 0) a) Hs in
  let Hs := upd 1 (add32 (sel Hs 1) b) Hs in
  let Hs := upd 2 (add32 (sel Hs 2) c) Hs in
  upd 3 (add32 (sel Hs 3) d) Hs.

(* int nextblock(BLOCK *M, FILE *infile, uint64_t *nobits, PADFLAG *status):
   the value returned and the four objects on return *)
Definition nextblock (host : endianness) (st : io PADFLAG) : Z * io PADFLAG :=
  let '(nobytesread, blk, file) := fread (M st) 64 (infile st) in
  let bits := wrap64 (nobits st + Z.of_nat nobytesread * 8) in
  match status st with
  | FINISH => (0, mkIO blk file bits FINISH)
  | PAD0 =>
      let blk := for_range 0 57 (fun i b => upd i 0 b) blk in
      let blk := set_sixfour host blk 7 bits in
      (1, mkIO blk file bits FINISH)
  | READ =>
      if (nobytesread <? 56)%nat then
        let blk := upd nobytesread 0x80 blk in
        let blk := for_range (nobytesread + 1) 56 (fun i b => upd i 0 b) blk in
        let blk := set_sixfour host blk 7 bits in
        (1, mkIO blk file bits FINISH)
      else if (nobytesread <? 64)%nat then
        let blk := upd nobytesread 0x80 blk in
        let blk := for_range (nobytesread + 1) 64 (fun i b => upd i 0 b) blk in
        (1, mkIO blk file bits PAD0)
      else (1, mkIO blk file bits READ)
  end.

(* the objects main declares before its loop *)
Definition init (garbage : nat -> Z) (data : list Z) : io PADFLAG :=
  mkIO (uninit garbage) data 0 READ.

(* the loop of main: the contents of H when it ends.  main prints
   nothing and returns 0. *)
Definition main_loop (host : endianness) (garbage : nat -> Z) (data : list Z)
    : option (list Z * io PADFLAG) :=
  while_blocks (nextblock host) (md5 host) (fuel_for data) (init garbage data) [A; B; C; D].

(* the padded blocks main hands to md5, in order *)
Definition blocks (host : endianness) (garbage : nat -> Z) (data : list Z)
    : option (list (list Z) * io PADFLAG) :=
  while_blocks (nextblock host) collect (fuel_for data) (init garbage data) [].

End Part_000.

(** ** Program/md5.c *)

Module Program_md5.

Definition ROTL (x n : Z) : Z := Z.lor (shl32 x n) (shr32 x (32 - n)).

Definition F (x y z : Z) : Z := Z.lor (Z.land x y) (Z.land (not32 x) z).
Definition G (x y z : Z) : Z := Z.lor (Z.land x z) (Z.land y (not32 z)).
Definition H (x y z : Z) : Z := Z.lxor (Z.lxor x y) z.
Definition I (x y z : Z) : Z := Z.lxor y (Z.lor x (not32 z)).

Definition T : list Z := Part_000.T.   (* the same 64 constants, md5.c lines 56-73 *)
Definition S : list Z := Part_000.S.   (* the same 64 shift amounts, md5.c lines 81-86 *)

Definition A : Z := 0x67452301.
Definition B : Z := 0xefcdab89.
Definition C : Z := 0x98badcfe.
Definition D : Z := 0x10325476.

Inductive PADFLAG := READ | PAD0 | FINISH.

(* the local variables a, b, c, d of md5 *)
Inductive reg := ra | rb | rc | rd.

Record regs := mkRegs { reg_a : Z; reg_b : Z; reg_c : Z; reg_d : Z }.

Definition get (r : reg) (v : regs) : Z :=
  match r with
  | ra => reg_a v
  | rb => reg_b v
  | rc => reg_c v
  | rd => reg_d v
  end.

Definition set (r : reg) (x : Z) (v : regs) : regs :=
  match r with
  | ra => mkRegs x (reg_b v) (reg_c v) (reg_d v)
  | rb => mkRegs (reg_a v) x (reg_c v) (reg_d v)
  | rc => mkRegs (reg_a v) (reg_b v) x (reg_d v)
  | rd => mkRegs (reg_a v) (reg_b v) (reg_c v) x
  end.

Inductive macro := FF | GG | HH | II.

Definition aux (m : macro) : Z -> Z -> Z -> Z :=
  match m with
  | FF => F
  | GG => G
  | HH => H
  | II => I
  end.

(* one line of the body of md5:
     XX (a, b, c, d, M->threetwo[m_index], S[s_index], T[t_index]) *)
Record invocation := call {
  fn : macro;
  arg_a : reg; arg_b : reg; arg_c : reg; arg_d : reg;
  m_index : nat; s_index : nat; t_index : nat
}.

(* XX(a,b,c,d,m,s,t) { a += X(b,c,d) + m + t; a = b + ROTL(a,s); } *)
Definition exec (host : endianness) (blk : list Z) (cl : invocation) (v : regs) : regs :=
  let m := threetwo host blk (m_index cl) in
  let s := sel S (s_index cl) in
  let t := sel T (t_index cl) in
  let v := set (arg_a cl)
             (add32 (get (arg_a cl) v)
                (add32 (add32 (aux (fn cl) (get (arg_b cl) v) (get (arg_c cl) v)
                                 (get (arg_d cl) v)) m) t)) v in
  set (arg_a cl) (add32 (get (arg_b cl) v) (ROTL (get (arg_a cl) v) s)) v.

(* md5.c lines 164-233, one entry per line *)
Definition body : list invocation := [
  call FF ra rb rc rd  0  0  0;
  call FF rd ra rb rc  1  1  1;
  call FF rc rd ra rb  2  2  2;
  call FF rb rc rd ra  3  3  3;
  call FF ra rb rc rd  4  4  4;
  call FF rd ra rb rc  5  5  5;
  call FF rc rd ra rb  6  6  6;
  call FF rb rc rd ra  7  7  7;
  call FF ra rb rc rd  8  8  8;
  call FF rd ra rb rc  9  9  9;
  call FF rc rd ra rb 10 10 10;
  call FF rb rc rd ra 11 11 11;
  call FF ra rb rc rd 12 12 12;
  call FF rd ra rb rc 13 13 13;
  call FF rc rd ra rb 14 14 14;
  call FF rb rc rd ra 15 15 15;
  call GG ra rb rc rd  1 16 16;
  call GG rd ra rb rc  6 17 17;
  call GG rc rd ra rb 11 18 18;
  call GG rb rc rd ra  0 19 19;
  call GG ra rb rc rd  5 20 20;
  call GG rd ra rb rc 10 21 21;
  call GG rc rd ra rb 15 22 22;
  call GG rb rc rd ra  4 23 23;
  call GG ra rb rc rd  9 24 24;
  call GG rd ra rb rc 14 25 25;
  call GG rc rd ra rb  3 26 26;
  call GG rb rc rd ra  8 27 27;
  call GG ra rb rc rd 13 28 28;
  call GG rd ra rb rc  2 29 29;
  call GG rc rd ra rb  7 30 30;
  call GG rb rc rd ra 12 31 31;
  call HH ra rb rc rd  5 32 32;
  call HH rd ra rb rc  8 33 33;
  call HH rc rd ra rb 11 34 34;
  call HH rb rc rd ra 14 35 35;
  call HH ra rb rc rd  1 36 36;
  call HH rd ra rb rc  4 37 37;
  call HH rc rd ra rb  7 38 38;
  call HH rb rc rd ra 10 39 39;
  call HH ra rb rc rd 13 40 40;
  call HH rd ra rb rc  0 41 41;
  call HH rc rd ra rb  3 42 42;
  call HH rb rc rd ra  6 43 43;
  call HH ra rb rc rd  9 44 44;
  call HH rd ra rb rc 12 45 45;
  call HH rc rd ra rb 15 46 46;
  call HH rb rc rd ra  2 47 47;
  call II ra rb rc rd  0 47 48;
  call II rd ra rb rc  7 47 49;
  call II rc rd ra rb 14 47 50;
  call II rb rc rd ra  5 47 51;
  call II ra rb rc rd 12 47 52;
  call II rd ra rb rc  3 47 53;
  call II rc rd ra rb 10 47 54;
  call II rb rc rd ra  1 47 55;
  call II ra rb rc rd  8 47 56;
  call II rd ra rb rc 15 47 57;
  call II rc rd ra rb  6 47 58;
  call II rb rc rd ra 13 47 59;
  call II ra rb rc rd  4 47 60;
  call II rd ra rb rc 11 47 61;
  call II rc rd ra rb  2 47 62;
  call II rb rc rd ra  9 47 63 ].

(* a, b, c, d after the 64 invocations, from a = state[0]; ... d = state[3];
   UINT4 is unsigned long and its values are truncated to WORD *)
Definition registers (host : endianness) (state : list Z) (blk : list Z) : regs :=
  let v := mkRegs (wrap32 (sel state 0)) (wrap32 (sel state 1))
                  (wrap32 (sel state 2)) (wrap32 (sel state 3)) in
  fold_left (fun v cl => exec host blk cl v) body v.

(* void md5(UINT4 *state, BLOCK *M): the contents of state[] and of the
   global output[] on return.  state[] is only read. *)
Definition md5 (host : endianness) (state : list Z) (blk : list Z) (output : list Z)
    : list Z * list Z :=
  let v := registers host state blk in
  let output := upd 0 (add32 (sel output 0) (reg_a v)) output in
  let output := upd 1 (add32 (sel output 1) (reg_b v)) output in
  let output := upd 2 (add32 (sel output 2) (reg_c v)) output in
  let output := upd 3 (add32 (sel output 3) (reg_d v)) output in
  (state, output).

(* int pad(BLOCK *M, FILE *infile, uint64_t *nobits, PADFLAG *status) *)
Definition pad (host : endianness) (st : io PADFLAG) : Z * io PADFLAG :=
  match status st with
  | FINISH => (0, st)
  | PAD0 =>
      let blk := for_range 0 56 (fun i b => upd i 0x00 b) (M st) in
      let blk := set_sixfour host blk 7 (nobits st) in
      (1, mkIO blk (infile st) (nobits st) FINISH)
  | READ =>
      let '(nobytesread, blk, file) := fread (M st) 64 (infile st) in
      let bits := wrap64 (nobits st + wrap64 (8 * Z.of_nat nobytesread)) in
      if (nobytesread <? 56)%nat then
        let blk := upd nobytesread 0x80 blk in
        let blk := for_range (nobytesread + 1) 56 (fun i b => upd i 0x00 b) blk in
        let blk := set_sixfour host blk 7 bits in
        (1, mkIO blk file bits FINISH)
      else if (nobytesread <? 64)%nat then
        let blk := upd nobytesread 0x80 blk in
        let blk := for_range (nobytesread + 1) 64 (fun i b => upd i 0x00 b) blk in
        (1, mkIO blk file bits PAD0)
      else (1, mkIO blk file bits READ)
  end.

(* void MD5_Prepare(MD5_CONTEXT *context, char *da) has an empty body *)
Definition MD5_Prepare (blk : list Z) (output : list Z) : list Z := output.

Definition init (garbage : nat -> Z) (data : list Z) : io PADFLAG :=
  mkIO (uninit garbage) data 0 READ.

(* main on an opened file: what it prints.  The global output[] starts
   as zeros; the loop calls MD5_Prepare only (the call of md5 is
   commented out); each word of output[] is printed with "%02x". *)
Definition main (host : endianness) (garbage : nat -> Z) (data : list Z) : option string :=
  match while_blocks (pad host) MD5_Prepare (fuel_for data) (init garbage data) [0; 0; 0; 0] with
  | Some (output, _) =>
      Some (String.concat EmptyString (map (printf_02x false) output) ++ newline)%string
  | None => None
  end.

(* the padded blocks the loop of main obtains, in order *)
Definition blocks (host : endianness) (garbage : nat -> Z) (data : list Z)
    : option (list (list Z) * io PADFLAG) :=
  while_blocks (pad host) collect (fuel_for data) (init garbage data) [].

End Program_md5.

(** ** Video_Code/Finalizing_Padding/Finalizing_padding.c *)

(** Array reads of nexthash are checked: a read outside the array or of an
    element that was never written is a fault. *)
Inductive fault :=
| UninitRead (array : string) (index : nat)
| OutOfBounds (array : string) (index : nat).

Definition checked (A : Type) : Type := (fault + A)%type.

Definition ret {A : Type} (x : A) : checked A := inr x.

Definition bind {A B : Type} (c : checked A) (k : A -> checked B) : checked B :=
  match c with
  | inl flt => inl flt
  | inr x => k x
  end.

Notation "x <- c1 ;; c2" := (bind c1 (fun x => c2))
  (at level 61, c1 at next level, right associativity).

(* for (t = lo; t < hi; t++) body, with a body that can fault *)
Definition for_rangeM {A : Type} (lo hi : nat) (body : nat -> A -> checked A) (a : A)
    : checked A :=
  fold_left (fun acc t => x <- acc ;; body t x) (seq lo (hi - lo)) (ret a).

Module Finalizing_padding.

(* one row per line of the initialiser *)
Definition K : list Z := concat [
  [0x428a2f98; 0x71374491; 0xb5c0fbcf; 0xe9b5dba5];
  [0x3956c25b; 0x59f111f1; 0x923f82a4; 0xab1c5ed5];
  [0xd807aa98; 0x12835b01; 0x243185be; 0x550c7dc3];
  [0x72be5d74; 0x80deb1fe; 0x9bdc06a7; 0xc19bf174];
  [0xe49b69c1; 0xefbe4786; 0x0fc19dc6; 0x240ca1cc];
  [0x2de92c6f; 0x4a7484aa; 0x5cb0a9dc; 0x76f988da];
  [0x983e5152; 0xa831c66d; 0xb00327c8; 0xbf597fc7];
  [0xc6e00bf3; 0xd5a79147; 0x06ca6351; 0x14292967];
  [0x27b70a85; 0x2e1b2138; 0x4d2c6dfc; 0x53380d13];
  [0x650a7354; 0x766a0abb; 0x81c2c92e; 0x92722c85];
  [0xa2bfe8a1; 0xa81a664b; 0xc24b8b70; 0xc76c51a3];
  [0xd192e819; 0xd6990624; 0xf40e3585; 0x106aa070];
  [0x19a4c116; 0x1e376c08; 0x2748774c; 0x34b0bcb5];
  [0x391c0cb3; 0x4ed8aa4a; 0x5b9cca4f; 0x682e6ff3];
  [0x748f82ee; 0x78a5636f; 0x84c87814; 0x8cc70208];
  [0x90befffa; 0xa4506ceb; 0xbef9a3f7; 0xc67178f2] ].

Definition Maj (x y z : Z) : Z := Z.lxor (Z.lxor (Z.land x y) (Z.land x z)) (Z.land y z).
Definition Ch (x y z : Z) : Z := Z.lxor (Z.land x y) (Z.land (not32 x) z).
Definition SHR (x n : Z) : Z := shr32 x n.
Definition ROTR (x n : Z) : Z := Z.lor (shr32 x n) (shl32 x (32 - n)).
Definition Sig0 (x : Z) : Z := Z.lxor (Z.lxor (ROTR x 2) (ROTR x 13)) (ROTR x 22).
Definition Sig1 (x : Z) : Z := Z.lxor (Z.lxor (ROTR x 6) (ROTR x 11)) (ROTR x 25).
Definition sig_zero (x : Z) : Z := Z.lxor (Z.lxor (ROTR x 7) (ROTR x 18)) (SHR x 3).
Definition sig_one (x : Z) : Z := Z.lxor (Z.lxor (ROTR x 17) (ROTR x 19)) (SHR x 10).

Inductive PADFLAG := READ | PAD0 | PAD1 | FINISH.

(* int nextblock(union block *M, FILE *infile, uint64_t *nobits, PADFLAG *status).
   No statement of the function assigns to *nobits. *)
Definition nextblock (host : endianness) (st : io PADFLAG) : Z * io PADFLAG :=
  match status st with
  | FINISH => (0, st)
  | PAD1 =>
      let blk := upd 0%nat 0x80 (M st) in
      let blk := for_range 1 56 (fun i b => upd i 0 b) blk in
      let blk := set_sixfour host blk 7 (nobits st) in
      (1, mkIO blk (infile st) (nobits st) FINISH)
  | PAD0 =>
      let blk := for_range 0 56 (fun i b => upd i 0 b) (M st) in
      let blk := set_sixfour host blk 7 (nobits st) in
      (1, mkIO blk (infile st) (nobits st) FINISH)
  | READ =>
      let '(nobytesread, blk, file) := fread (M st) 64 (infile st) in
      if (nobytesread =? 64)%nat then (1, mkIO blk file (nobits st) READ)
      else if (nobytesread <? 56)%nat then
        let blk := upd nobytesread 0x80 blk in
        let blk := for_range (nobytesread + 1) 56 (fun i b => upd i 0 b) blk in
        let blk := set_sixfour host blk 7 (nobits st) in
        (1, mkIO blk file (nobits st) FINISH)
      else
        let blk := upd nobytesread 0x80 blk in
        let blk := for_range (nobytesread + 1) 64 (fun i b => upd i 0 b) blk in
        (1, mkIO blk file (nobits st) PAD0)
  end.

(* K[t] and W[t]; an element of W is None until it is assigned *)
Definition read_K (t : nat) : checked Z :=
  match nth_error K t with
  | Some k => ret k
  | None => inl (OutOfBounds "K" t)
  end.

Definition read_W (W : list (option Z)) (t : nat) : checked Z :=
  match nth_error W t with
  | Some (Some w) => ret w
  | Some None => inl (UninitRead "W" t)
  | None => inl (OutOfBounds "W" t)
  end.

(* the message schedule: the two loops that fill W, from the contents
   [W0] the array has when the function is entered *)
Definition schedule_from (W0 : list (option Z)) (host : endianness) (blk : list Z)
    : checked (list (option Z)) :=
  let W := for_range 0 16 (fun t W => upd t (Some (threetwo host blk t)) W) W0 in
  for_rangeM 16 16
    (fun t W =>
       w2 <- read_W W (t - 2) ;;
       w7 <- read_W W (t - 7) ;;
       w15 <- read_W W (t - 15) ;;
       w16 <- read_W W (t - 16) ;;
       ret (upd t (Some (add32 (add32 (add32 (sig_one w2) w7) (sig_zero w15)) w16)) W))
    W.

(* uint32_t W[64] is declared without initialiser *)
Definition schedule : endianness -> list Z -> checked (list (option Z)) :=
  schedule_from (repeat None 64).

(* the variables a .. h and the array H of the third loop *)
Record locals := mkLocals {
  va : Z; vb : Z; vc : Z; vd : Z; ve : Z; vf : Z; vg : Z; vh : Z;
  vH : list Z
}.

(* the body of the third loop, given the values of K[t] and W[t] *)
Definition round_step (k w : Z) (v : locals) : locals :=
  let T1 := add32 (add32 (add32 (add32 (vh v) (Sig1 (ve v))) (Ch (ve v) (vf v) (vg v))) k) w in
  let T2 := add32 (Sig0 (va v)) (Maj (va v) (vb v) (vc v)) in
  let h := vg v in
  let g := vf v in
  let f := ve v in
  let e := add32 (vd v) T1 in
  let d := vc v in
  let c := vb v in
  let b := va v in
  let a := add32 T1 T2 in
  let Hs := vH v in
  let Hs := upd 0 (add32 (sel Hs 0) a) Hs in
  let Hs := upd 1 (add32 (sel Hs 1) b) Hs in
  let Hs := upd 2 (add32 (sel Hs 2) c) Hs in
  let Hs := upd 3 (add32 (sel Hs 3) d) Hs in
  let Hs := upd 4 (add32 (sel Hs 4) e) Hs in
  let Hs := upd 5 (add32 (sel Hs 5) f) Hs in
  let Hs := upd 6 (add32 (sel Hs 6) g) Hs in
  let Hs := upd 7 (add32 (sel Hs 7) f) Hs in
  mkLocals a b c d e f g h Hs.

Definition round (W : list (option Z)) (t : nat) (v : locals) : checked locals :=
  k <- read_K t ;;
  w <- read_W W t ;;
  ret (round_step k w v).

(* a = H[0]; ... h = H[7]; *)
Definition load (Hs : list Z) : locals :=
  mkLocals (sel Hs 0) (sel Hs 1) (sel Hs 2) (sel Hs 3)
           (sel Hs 4) (sel Hs 5) (sel Hs 6) (sel Hs 7) Hs.

(* for (t = 0; t < n; t++) { ... }; the source has n = 65 *)
Definition rounds (W : list (option Z)) (n : nat) (v : locals) : checked locals :=
  for_rangeM 0 n (round W) v.

(* void nexthash(union block *M, uint32_t *H): the contents of H on return *)
Definition nexthash_from (W0 : list (option Z)) (host : endianness) (blk : list Z)
    (Hs : list Z) : checked (list Z) :=
  W <- schedule_from W0 host blk ;;
  v <- rounds W 65 (load Hs) ;;
  ret (vH v).

Definition nexthash : endianness -> list Z -> list Z -> checked (list Z) :=
  nexthash_from (repeat None 64).

Definition H_init : list Z := [
  0x6a09e667; 0xbb67ae85; 0x3c6ef372; 0xa54ff53a;
  0x510e527f; 0x9b05688c; 0x1f83d9ab; 0x5be0cd19 ].

Definition init (garbage : nat -> Z) (data : list Z) : io PADFLAG :=
  mkIO (uninit garbage) data 0 READ.

(* main on an opened file: what it prints, each word of H with "%02X" *)
Definition main (host : endianness) (garbage : nat -> Z) (data : list Z)
    : option (checked string) :=
  match while_blocks (nextblock host) (fun blk acc => Hs <- acc ;; nexthash host blk Hs)
          (fuel_for data) (init garbage data) (ret H_init) with
  | Some (acc, _) =>
      Some (Hs <- acc ;;
            ret (String.concat EmptyString (map (printf_02x true) Hs) ++ newline)%string)
  | None => None
  end.

(* the padded blocks main hands to nexthash, in order *)
Definition blocks (host : endianness) (garbage : nat -> Z) (data : list Z)
    : option (list (list Z) * io PADFLAG) :=
  while_blocks (nextblock host) collect (fuel_for data) (init garbage data) [].

End Finalizing_padding.

(** ** Vocabulary of the statements *)

(* the bit counter after [n] more bytes, for a padder that adds [rate]
   bits per byte read *)
Definition bump (rate bits : Z) (n : nat) : Z := wrap64 (bits + rate * Z.of_nat n).

(* zero bytes between the marker and the length field of a message of
   [n] bytes *)
Definition pad_zeros (n : nat) : nat :=
  if (n mod 64 <? 56)%nat then (55 - n mod 64)%nat else (119 - n mod 64)%nat.

(* padded blocks of a message of [n] bytes *)
Definition block_count (n : nat) : nat :=
  (n / 64 + (if (n mod 64 <? 56)%nat then 1 else 2))%nat.

(* the trailing eight bytes of a block *)
Definition length_field (blk : list Z) : list Z := skipn 56 blk.

(* what a padded stream holds between the message and the length field *)
Definition inserted_padding (data stream : list Z) : list Z :=
  firstn (length stream - length data - 8) (skipn (length data) stream).

(* the block that pads the empty message, with its bit count of zero *)
Definition empty_block : list Z := 0x80 :: repeat 0 63.

(* what a padding loop has produced when it ends, having started with the
   bit counter [bits] on the unread bytes [file]: the blocks [bs] handed
   to the hash and the final objects [st] *)
Definition padded {flag : Type} (FINISH : flag) (host : endianness) (rate : Z)
    (file : list Z) (bits : Z) (bs : list (list Z)) (st : io flag) : Prop :=
  concat bs = file ++ [0x80] ++ repeat 0 (pad_zeros (length file))
                ++ encode host 8 (bump rate bits (length file))
  /\ Forall (fun b => length b = 64%nat) bs
  /\ length bs = block_count (length file)
  /\ length_field (last bs []) = encode host 8 (bump rate bits (length file))
  /\ st = mkIO (last bs []) [] (bump rate bits (length file)) FINISH.

(* the result [r] of a padder call that read all of [file], fewer than 56
   bytes, with the bit counter at [bits] before the call *)
Definition short_padded {flag : Type} (FINISH : flag) (host : endianness)
    (file : list Z) (bits : Z) (r : Z * io flag) : Prop :=
  let n := length file in
  let st := snd r in
  fst r = 1
  /\ firstn n (M st) = file
  /\ nth n (M st) 0 = 0x80
  /\ (forall i, (n < i < 56)%nat -> nth i (M st) 0 = 0)
  /\ length_field (M st) = encode host 8 (nobits st)
  /\ nobits st = wrap64 (bits + 8 * Z.of_nat n)
  /\ status st = FINISH.

(* a padded stream with a single marker: the message, one byte 0x80, zero
   bytes only, then eight bytes of length; a whole number of blocks *)
Definition one_marker (data stream : list Z) : Prop :=
  (exists len, length len = 8%nat
     /\ stream = data ++ [0x80] ++ repeat 0 (pad_zeros (length data)) ++ len)
  /\ count_occ Z.eq_dec (inserted_padding data stream) 0x80 = 1%nat
  /\ (0 < length stream)%nat
  /\ (length stream mod 64 = 0)%nat.

(* an array W whose 64 elements all hold a value left by earlier calls *)
Definition stale (w : nat -> Z) : list (option Z) := map (fun i => Some (w i)) (seq 0 64).

(* the four registers of md5.c as the array H of the loop-based file *)
Definition regs_list (v : Program_md5.regs) : list Z :=
  [Program_md5.reg_a v; Program_md5.reg_b v; Program_md5.reg_c v; Program_md5.reg_d v].

Definition reg_index (r : Program_md5.reg) : nat :=
  match r with
  | Program_md5.ra => 0
  | Program_md5.rb => 1
  | Program_md5.rc => 2
  | Program_md5.rd => 3
  end.

(* an invocation of md5.c with the shift entry of its own round *)
Definition own_shift (cl : Program_md5.invocation) : Program_md5.invocation :=
  Program_md5.call (Program_md5.fn cl)
    (Program_md5.arg_a cl) (Program_md5.arg_b cl) (Program_md5.arg_c cl) (Program_md5.arg_d cl)
    (Program_md5.m_index cl) (Program_md5.t_index cl) (Program_md5.t_index cl).

(* Modelled from the spec: the digest assembler of section 4.3, which the
   sources do not have: the words of the final state in index order, each
   in the byte order of the algorithm. *)
Definition assemble (order : endianness) (state : list Z) : list Z :=
  concat (map (encode order 4) state).

(* the published digests of the empty message *)
Definition md5_of_empty : list Z := [
  0xd4; 0x1d; 0x8c; 0xd9; 0x8f; 0x00; 0xb2; 0x04;
  0xe9; 0x80; 0x09; 0x98; 0xec; 0xf8; 0x42; 0x7e ].

Definition sha256_of_empty : list Z := [
  0xe3; 0xb0; 0xc4; 0x42; 0x98; 0xfc; 0x1c; 0x14;
  0x9a; 0xfb; 0xf4; 0xc8; 0x99; 0x6f; 0xb9; 0x24;
  0x27; 0xae; 0x41; 0xe4; 0x64; 0x9b; 0x93; 0x4c;
  0xa4; 0x95; 0x99; 0x1b; 0x78; 0x52; 0xb8; 0x55 ].

(* the macro and the auxiliary function of iteration [i] of the loop of md5 *)
Definition group_macro (i : nat) : Program_md5.macro :=
  if (i <? 16)%nat then Program_md5.FF
  else if (i <? 32)%nat then Program_md5.GG
  else if (i <? 48)%nat then Program_md5.HH
  else Program_md5.II.

(* the default of lookups in the body of md5.c, never reached below 64 *)
Definition line0 : Program_md5.invocation :=
  Program_md5.call Program_md5.FF Program_md5.ra Program_md5.ra Program_md5.ra Program_md5.ra
    0 0 0.

(* a value of type uint32_t *)
Definition in32 (w : Z) : Prop := 0 <= w < 2 ^ 32.

(* bit i of a word selects between the bits of two others *)
Definition choose (x y z : bool) : bool := if x then y else z.

(* the majority of three bits *)
Definition majority (x y z : bool) : bool := (x && y) || (x && z) || (y && z).

(** * Properties *)

(** ** Arrays and loops *)

Lemma upd_length {A : Type} (i : nat) (v : A) (l : list A) :
  length (upd i v l) = length l.
Proof.
  revert i; induction l as [|x l IH]; intros [|i]; simpl; auto.
Qed.

Lemma upd_app_here {A : Type} (p q : list A) (x v : A) :
  upd (length p) v (p ++ x :: q) = p ++ v :: q.
Proof.
  induction p as [|y p IH]; simpl; [reflexivity | now rewrite IH].
Qed.

Lemma for_range_done {A : Type} (lo hi : nat) (body : nat -> A -> A) (a : A) :
  (hi <= lo)%nat -> for_range lo hi body a = a.
Proof.
  intros Hle. unfold for_range.
  replace (hi - lo)%nat with 0%nat by lia. reflexivity.
Qed.

Lemma for_range_step {A : Type} (lo hi : nat) (body : nat -> A -> A) (a : A) :
  (lo < hi)%nat -> for_range lo hi body a = for_range (S lo) hi body (body lo a).
Proof.
  intros Hlt. unfold for_range.
  replace (hi - lo)%nat with (S (hi - S lo)) by lia. reflexivity.
Qed.

Lemma for_range_last {A : Type} (lo hi : nat) (body : nat -> A -> A) (a : A) :
  (lo <= hi)%nat -> for_range lo (S hi) body a = body hi (for_range lo hi body a).
Proof.
  intros Hle. unfold for_range.
  replace (S hi - lo)%nat with (S (hi - lo)) by lia.
  rewrite seq_S, fold_left_app. simpl.
  replace (lo + (hi - lo))%nat with hi by lia. reflexivity.
Qed.

(* the zero-filling loops of the padders *)
Lemma zero_fill (k : nat) : forall (p q1 q2 : list Z),
  length q1 = k ->
  for_range (length p) (length p + k) (fun i b => upd i 0 b) (p ++ q1 ++ q2)
  = p ++ repeat 0 k ++ q2.
Proof.
  induction k as [|k IH]; intros p q1 q2 Hlen.
  - destruct q1; [|discriminate]. now rewrite for_range_done by lia.
  - destruct q1 as [|x q1]; [discriminate|]. simpl in Hlen.
    rewrite for_range_step by lia. simpl app at 1.
    rewrite upd_app_here.
    replace (p ++ 0 :: q1 ++ q2) with ((p ++ [0]) ++ q1 ++ q2)
      by (now rewrite <- app_assoc).
    replace (S (length p)) with (length (p ++ [0%Z]))
      by (rewrite length_app; cbn [length]; lia).
    replace (length p + S k)%nat with (length (p ++ [0%Z]) + k)%nat
      by (rewrite length_app; cbn [length]; lia).
    rewrite IH by lia. now rewrite <- app_assoc.
Qed.

Lemma split_at {A : Type} (n : nat) (l : list A) :
  (n <= length l)%nat ->
  exists p q, l = p ++ q /\ length p = n /\ length q = (length l - n)%nat.
Proof.
  intros Hle. exists (firstn n l), (skipn n l).
  rewrite firstn_skipn, length_firstn, length_skipn. repeat split; lia.
Qed.

Lemma le_encode_length (n : nat) : forall v, length (le_encode n v) = n.
Proof. induction n; intros v; simpl; auto. Qed.

Lemma encode_length (e : endianness) (n : nat) (v : Z) : length (encode e n v) = n.
Proof.
  destruct e; simpl; [|rewrite length_rev]; apply le_encode_length.
Qed.

Lemma set_sixfour_last (host : endianness) (p q : list Z) (v : Z) :
  length p = 56%nat -> length q = 8%nat ->
  set_sixfour host (p ++ q) 7 v = p ++ encode host 8 v.
Proof.
  intros Hp Hq. unfold set_sixfour.
  change (8 * 7)%nat with 56%nat. change (56 + 8)%nat with 64%nat.
  rewrite firstn_app, Hp, Nat.sub_diag, firstn_O, app_nil_r.
  rewrite <- Hp at 1. rewrite firstn_all.
  rewrite skipn_all2 by (rewrite length_app; lia).
  now rewrite app_nil_r.
Qed.

Lemma uninit_length (garbage : nat -> Z) : length (uninit garbage) = 64%nat.
Proof. unfold uninit. now rewrite length_map, length_seq. Qed.

(** ** The blocks the padders build *)

(* fewer than 56 bytes read: marker, zeros up to byte 55, bit count *)
Lemma short_block (host : endianness) (file buf : list Z) (bits : Z) :
  (length file < 56)%nat -> length buf = 64%nat ->
  set_sixfour host
    (for_range (length file + 1) 56 (fun i b => upd i 0 b)
       (upd (length file) 0x80 (file ++ skipn (length file) buf))) 7 bits
  = file ++ [0x80] ++ repeat 0 (55 - length file) ++ encode host 8 bits.
Proof.
  intros Hn Hbuf.
  destruct (split_at 1 (skipn (length file) buf)) as (x & r & Hx & Hxl & Hrl);
    [rewrite length_skipn; lia|].
  rewrite length_skipn in Hrl.
  destruct (split_at (55 - length file) r) as (q1 & q2 & Hq & Hq1 & Hq2); [lia|].
  destruct x as [|x [|? ?]]; try discriminate. simpl in Hx.
  rewrite Hx, Hq, upd_app_here.
  replace (file ++ 128 :: q1 ++ q2) with ((file ++ [128]) ++ q1 ++ q2)
    by (now rewrite <- app_assoc).
  replace (length file + 1)%nat with (length (file ++ [128%Z]))
    by (rewrite length_app; cbn [length]; lia).
  replace 56%nat with (length (file ++ [128%Z]) + (55 - length file))%nat at 1
    by (rewrite length_app; cbn [length]; lia).
  rewrite zero_fill by exact Hq1.
  rewrite app_assoc, set_sixfour_last.
  - now rewrite <- !app_assoc.
  - rewrite !length_app, repeat_length. cbn [length]. lia.
  - lia.
Qed.

(* between 56 and 63 bytes read: marker and zeros up to byte 63 *)
Lemma long_block (file buf : list Z) :
  (56 <= length file < 64)%nat -> length buf = 64%nat ->
  for_range (length file + 1) 64 (fun i b => upd i 0 b)
    (upd (length file) 0x80 (file ++ skipn (length file) buf))
  = file ++ [0x80] ++ repeat 0 (63 - length file).
Proof.
  intros Hn Hbuf.
  destruct (split_at 1 (skipn (length file) buf)) as (x & r & Hx & Hxl & Hrl);
    [rewrite length_skipn; lia|].
  rewrite length_skipn in Hrl.
  destruct x as [|x [|? ?]]; try discriminate. simpl in Hx.
  rewrite Hx, upd_app_here.
  replace (file ++ 128 :: r) with ((file ++ [128]) ++ r ++ [])
    by (now rewrite <- app_assoc, app_nil_r).
  replace (length file + 1)%nat with (length (file ++ [128%Z]))
    by (rewrite length_app; cbn [length]; lia).
  replace 64%nat with (length (file ++ [128%Z]) + (63 - length file))%nat at 1
    by (rewrite length_app; cbn [length]; lia).
  rewrite zero_fill by lia.
  now rewrite app_nil_r, <- app_assoc.
Qed.

(* the block of padding only: zeros and the bit count *)
Lemma pad_only_block (host : endianness) (k : nat) (buf : list Z) (bits : Z) :
  (56 <= k <= 64)%nat -> length buf = 64%nat ->
  set_sixfour host (for_range 0 k (fun i b => upd i 0 b) buf) 7 bits
  = repeat 0 56 ++ encode host 8 bits.
Proof.
  intros Hk Hbuf.
  destruct (split_at k buf) as (q1 & q2 & Hq & Hq1 & Hq2); [lia|].
  rewrite Hq.
  pose proof (zero_fill k [] q1 q2 Hq1) as Hz. simpl in Hz. rewrite Hz.
  unfold set_sixfour. change (8 * 7)%nat with 56%nat. change (56 + 8)%nat with 64%nat.
  rewrite skipn_all2 by (rewrite length_app, repeat_length; lia).
  rewrite app_nil_r. f_equal.
  rewrite firstn_app, repeat_length.
  replace (56 - k)%nat with 0%nat by lia. rewrite firstn_O, app_nil_r.
  replace k with (56 + (k - 56))%nat by lia.
  rewrite repeat_app, firstn_app, repeat_length, Nat.sub_diag, firstn_O, app_nil_r.
  rewrite <- (repeat_length 0 56) at 1. apply firstn_all.
Qed.

Lemma fread_all (buf file : list Z) :
  (length file < 64)%nat ->
  fread buf 64 file = (length file, file ++ skipn (length file) buf, []).
Proof.
  intros Hn. unfold fread.
  replace (Nat.min 64 (length file)) with (length file) by lia.
  now rewrite firstn_all, skipn_all.
Qed.

Lemma fread_full (buf file : list Z) :
  (64 <= length file)%nat -> length buf = 64%nat ->
  fread buf 64 file = (64%nat, firstn 64 file, skipn 64 file).
Proof.
  intros Hn Hbuf. unfold fread.
  replace (Nat.min 64 (length file)) with 64%nat by lia.
  rewrite (skipn_all2 buf) by lia. now rewrite app_nil_r.
Qed.

(** ** The padding loop, for any padder with the five transitions *)

Ltac divlia := zify; Z.to_euclidean_division_equations; lia.

Lemma bump_range (rate bits : Z) (n : nat) : 0 <= bump rate bits n < 2 ^ 64.
Proof. unfold bump, wrap64. apply Z.mod_pos_bound. lia. Qed.

Lemma bump_bump (rate bits : Z) (n m : nat) :
  bump rate (bump rate bits n) m = bump rate bits (n + m).
Proof.
  unfold bump, wrap64. rewrite Zplus_mod_idemp_l. f_equal. lia.
Qed.

Lemma bump_0 (rate bits : Z) : 0 <= bits < 2 ^ 64 -> bump rate bits 0 = bits.
Proof.
  intros Hr. unfold bump, wrap64. rewrite Z.mul_0_r, Z.add_0_r.
  now apply Z.mod_small.
Qed.

Section Padding.

Context {flag : Type}.
Variables (READ PAD0 FINISH : flag).
Variable next : io flag -> Z * io flag.
Variable host : endianness.
Variable rate : Z.

Hypothesis next_full : forall blk file bits,
  length blk = 64%nat -> (64 <= length file)%nat -> 0 <= bits < 2 ^ 64 ->
  next (mkIO blk file bits READ)
  = (1, mkIO (firstn 64 file) (skipn 64 file) (bump rate bits 64) READ).

Hypothesis next_short : forall blk file bits,
  length blk = 64%nat -> (length file < 56)%nat -> 0 <= bits < 2 ^ 64 ->
  next (mkIO blk file bits READ)
  = (1, mkIO (file ++ [0x80] ++ repeat 0 (55 - length file)
                ++ encode host 8 (bump rate bits (length file)))
             [] (bump rate bits (length file)) FINISH).

Hypothesis next_long : forall blk file bits,
  length blk = 64%nat -> (56 <= length file < 64)%nat -> 0 <= bits < 2 ^ 64 ->
  next (mkIO blk file bits READ)
  = (1, mkIO (file ++ [0x80] ++ repeat 0 (63 - length file))
             [] (bump rate bits (length file)) PAD0).

Hypothesis next_pad0 : forall blk bits,
  length blk = 64%nat -> 0 <= bits < 2 ^ 64 ->
  next (mkIO blk [] bits PAD0)
  = (1, mkIO (repeat 0 56 ++ encode host 8 bits) [] bits FINISH).

Hypothesis next_finish : forall blk bits,
  length blk = 64%nat -> 0 <= bits < 2 ^ 64 ->
  next (mkIO blk [] bits FINISH) = (0, mkIO blk [] bits FINISH).

Lemma short_length (file : list Z) (enc : list Z) :
  (length file < 56)%nat -> length enc = 8%nat ->
  length (file ++ [0x80] ++ repeat 0 (55 - length file) ++ enc) = 64%nat.
Proof.
  intros Hn He. rewrite !length_app, repeat_length, He. cbn [length]. lia.
Qed.

Lemma short_field (file : list Z) (enc : list Z) :
  (length file < 56)%nat ->
  length_field (file ++ [0x80] ++ repeat 0 (55 - length file) ++ enc) = enc.
Proof.
  intros Hn. unfold length_field. rewrite !app_assoc.
  assert (Hlen : length ((file ++ [0x80]) ++ repeat 0 (55 - length file)) = 56%nat)
    by (rewrite !length_app, repeat_length; cbn [length]; lia).
  rewrite skipn_app, Hlen, skipn_all2 by lia. reflexivity.
Qed.

Lemma loop_tail (fuel : nat) (file blk : list Z) (bits : Z) (acc : list (list Z)) :
  length blk = 64%nat -> 0 <= bits < 2 ^ 64 ->
  (length file < 64)%nat -> (3 <= fuel)%nat ->
  exists bs st,
    while_blocks next collect fuel (mkIO blk file bits READ) acc = Some (acc ++ bs, st)
    /\ padded FINISH host rate file bits bs st.
Proof.
  intros Hblk Hbits Hn Hfuel.
  destruct fuel as [|[|[|fuel]]]; try lia.
  pose proof (bump_range rate bits (length file)) as Hb.
  pose proof (encode_length host 8 (bump rate bits (length file))) as He.
  assert (Hmod : (length file mod 64 = length file)%nat) by (apply Nat.mod_small; lia).
  assert (Hdiv : (length file / 64 = 0)%nat) by (apply Nat.div_small; lia).
  destruct (Nat.ltb_spec (length file) 56) as [Hs | Hl].
  - eexists [_], _. split.
    + cbn [while_blocks]. rewrite next_short by assumption. cbn [Z.eqb M].
      rewrite next_finish by (auto using short_length). reflexivity.
    + unfold padded, pad_zeros, block_count. rewrite Hmod, Hdiv.
      destruct (Nat.ltb_spec (length file) 56); [|lia].
      cbn [concat last length]. rewrite app_nil_r.
      split; [|split; [|split; [|split]]]; auto using short_field.
      constructor; auto using short_length.
  - assert (Hl1 : length (file ++ [0x80] ++ repeat 0 (63 - length file)) = 64%nat)
      by (rewrite !length_app, repeat_length; cbn [length]; lia).
    assert (Hl2 : length (repeat 0 56 ++ encode host 8 (bump rate bits (length file)))
                  = 64%nat)
      by (rewrite length_app, repeat_length, encode_length; reflexivity).
    eexists [_; _], _. split.
    + cbn [while_blocks]. rewrite next_long by (auto; lia). cbn [Z.eqb M].
      rewrite next_pad0 by assumption. cbn [Z.eqb M].
      rewrite next_finish by assumption.
      unfold collect. rewrite <- !app_assoc. reflexivity.
    + unfold padded, pad_zeros, block_count. rewrite Hmod, Hdiv.
      destruct (Nat.ltb_spec (length file) 56); [lia|].
      cbn [concat last length]. rewrite app_nil_r.
      split; [|split; [|split; [|split]]]; try reflexivity.
      * rewrite <- !app_assoc. do 2 f_equal. rewrite app_assoc, <- repeat_app.
        do 2 f_equal. lia.
      * repeat constructor; assumption.
Qed.

Lemma loop_blocks (fuel : nat) : forall (file blk : list Z) (bits : Z) (acc : list (list Z)),
  length blk = 64%nat -> 0 <= bits < 2 ^ 64 ->
  (length file / 64 + 3 <= fuel)%nat ->
  exists bs st,
    while_blocks next collect fuel (mkIO blk file bits READ) acc = Some (acc ++ bs, st)
    /\ padded FINISH host rate file bits bs st.
Proof.
  induction fuel as [|fuel IH]; intros file blk bits acc Hblk Hbits Hfuel; [lia|].
  destruct (Nat.ltb_spec (length file) 64) as [Hs | Hl].
  { apply loop_tail; auto. lia. }
  destruct (IH (skipn 64 file) (firstn 64 file) (bump rate bits 64)
               (collect (firstn 64 file) acc))
    as (bs & st & Hrun & Hcat & Hall & Hlen & Hfield & Hst).
  - rewrite length_firstn. lia.
  - apply bump_range.
  - rewrite length_skipn. divlia.
  - rewrite length_skipn, bump_bump in *.
    replace (64 + (length file - 64))%nat with (length file) in * by lia.
    assert (Hne : bs <> []).
    { intros ->. unfold length_field in Hfield. simpl in Hfield.
      apply (f_equal (@length Z)) in Hfield.
      rewrite encode_length in Hfield. discriminate. }
    exists (firstn 64 file :: bs), st. split.
    + cbn [while_blocks]. rewrite next_full by assumption. cbn [Z.eqb M].
      rewrite Hrun. unfold collect. now rewrite <- app_assoc.
    + assert (Hlast : last (firstn 64 file :: bs) [] = last bs []).
      { destruct bs; [contradiction|reflexivity]. }
      unfold padded. rewrite Hlast.
      split; [|split; [|split; [|split]]]; auto.
      * cbn [concat]. rewrite Hcat, app_assoc, firstn_skipn.
        do 3 f_equal. unfold pad_zeros.
        replace ((length file - 64) mod 64)%nat with (length file mod 64)%nat
          by divlia.
        reflexivity.
      * constructor; auto. rewrite length_firstn. lia.
      * cbn [length]. rewrite Hlen. unfold block_count.
        replace ((length file - 64) mod 64)%nat with (length file mod 64)%nat
          by divlia.
        replace ((length file - 64) / 64)%nat with (length file / 64 - 1)%nat
          by divlia.
        assert (1 <= length file / 64)%nat by divlia. lia.
Qed.

End Padding.

(** ** The three padders have the five transitions *)

Ltac ltb_true := symmetry; apply Nat.ltb_lt; lia.
Ltac ltb_false := symmetry; apply Nat.ltb_ge; lia.

Lemma fread_eof (buf : list Z) : fread buf 64 [] = (0%nat, buf, []).
Proof. reflexivity. Qed.

Lemma bump_swap (bits : Z) (n : nat) :
  wrap64 (bits + Z.of_nat n * 8) = bump 8 bits n.
Proof. unfold bump. now rewrite Z.mul_comm. Qed.

Lemma bump_nested (bits : Z) (n : nat) :
  wrap64 (bits + wrap64 (8 * Z.of_nat n)) = bump 8 bits n.
Proof. unfold bump, wrap64. now rewrite Zplus_mod_idemp_r. Qed.

Lemma bump_rate0 (bits : Z) (n : nat) : 0 <= bits < 2 ^ 64 -> bump 0 bits n = bits.
Proof.
  intros Hr. unfold bump, wrap64. rewrite Z.mul_0_l, Z.add_0_r.
  now apply Z.mod_small.
Qed.

Section Part_000_transitions.

Import Part_000.
Variable host : endianness.

Lemma Part_000_full (blk file : list Z) (bits : Z) :
  length blk = 64%nat -> (64 <= length file)%nat -> 0 <= bits < 2 ^ 64 ->
  nextblock host (mkIO blk file bits READ)
  = (1, mkIO (firstn 64 file) (skipn 64 file) (bump 8 bits 64) READ).
Proof.
  intros Hblk Hn _. unfold nextblock. cbn [M infile nobits status].
  rewrite fread_full by assumption. cbv beta iota.
  now rewrite bump_swap.
Qed.

Lemma Part_000_short (blk file : list Z) (bits : Z) :
  length blk = 64%nat -> (length file < 56)%nat -> 0 <= bits < 2 ^ 64 ->
  nextblock host (mkIO blk file bits READ)
  = (1, mkIO (file ++ [0x80] ++ repeat 0 (55 - length file)
                ++ encode host 8 (bump 8 bits (length file)))
             [] (bump 8 bits (length file)) FINISH).
Proof.
  intros Hblk Hn _. unfold nextblock. cbn [M infile nobits status].
  rewrite fread_all by lia. cbv beta iota.
  replace (length file <? 56)%nat with true by ltb_true.
  now rewrite short_block, bump_swap by assumption.
Qed.

Lemma Part_000_long (blk file : list Z) (bits : Z) :
  length blk = 64%nat -> (56 <= length file < 64)%nat -> 0 <= bits < 2 ^ 64 ->
  nextblock host (mkIO blk file bits READ)
  = (1, mkIO (file ++ [0x80] ++ repeat 0 (63 - length file))
             [] (bump 8 bits (length file)) PAD0).
Proof.
  intros Hblk Hn _. unfold nextblock. cbn [M infile nobits status].
  rewrite fread_all by lia. cbv beta iota.
  replace (length file <? 56)%nat with false by ltb_false.
  replace (length file <? 64)%nat with true by ltb_true.
  now rewrite long_block, bump_swap by assumption.
Qed.

Lemma Part_000_pad0 (blk : list Z) (bits : Z) :
  length blk = 64%nat -> 0 <= bits < 2 ^ 64 ->
  nextblock host (mkIO blk [] bits PAD0)
  = (1, mkIO (repeat 0 56 ++ encode host 8 bits) [] bits FINISH).
Proof.
  intros Hblk Hr. unfold nextblock. cbn [M infile nobits status].
  rewrite fread_eof. cbv beta iota.
  rewrite bump_swap, bump_0 by assumption.
  now rewrite pad_only_block by (auto; lia).
Qed.

Lemma Part_000_finish (blk : list Z) (bits : Z) :
  length blk = 64%nat -> 0 <= bits < 2 ^ 64 ->
  nextblock host (mkIO blk [] bits FINISH) = (0, mkIO blk [] bits FINISH).
Proof.
  intros Hblk Hr. unfold nextblock. cbn [M infile nobits status].
  rewrite fread_eof. cbv beta iota.
  now rewrite bump_swap, bump_0 by assumption.
Qed.

End Part_000_transitions.

Section Program_md5_transitions.

Import Program_md5.
Variable host : endianness.

Lemma Program_md5_full (blk file : list Z) (bits : Z) :
  length blk = 64%nat -> (64 <= length file)%nat -> 0 <= bits < 2 ^ 64 ->
  pad host (mkIO blk file bits READ)
  = (1, mkIO (firstn 64 file) (skipn 64 file) (bump 8 bits 64) READ).
Proof.
  intros Hblk Hn _. unfold pad. cbn [M infile nobits status].
  rewrite fread_full by assumption. cbv beta iota.
  now rewrite bump_nested.
Qed.

Lemma Program_md5_short (blk file : list Z) (bits : Z) :
  length blk = 64%nat -> (length file < 56)%nat -> 0 <= bits < 2 ^ 64 ->
  pad host (mkIO blk file bits READ)
  = (1, mkIO (file ++ [0x80] ++ repeat 0 (55 - length file)
                ++ encode host 8 (bump 8 bits (length file)))
             [] (bump 8 bits (length file)) FINISH).
Proof.
  intros Hblk Hn _. unfold pad. cbn [M infile nobits status].
  rewrite fread_all by lia. cbv beta iota.
  replace (length file <? 56)%nat with true by ltb_true.
  now rewrite short_block, bump_nested by assumption.
Qed.

Lemma Program_md5_long (blk file : list Z) (bits : Z) :
  length blk = 64%nat -> (56 <= length file < 64)%nat -> 0 <= bits < 2 ^ 64 ->
  pad host (mkIO blk file bits READ)
  = (1, mkIO (file ++ [0x80] ++ repeat 0 (63 - length file))
             [] (bump 8 bits (length file)) PAD0).
Proof.
  intros Hblk Hn _. unfold pad. cbn [M infile nobits status].
  rewrite fread_all by lia. cbv beta iota.
  replace (length file <? 56)%nat with false by ltb_false.
  replace (length file <? 64)%nat with true by ltb_true.
  now rewrite long_block, bump_nested by assumption.
Qed.

Lemma Program_md5_pad0 (blk : list Z) (bits : Z) :
  length blk = 64%nat -> 0 <= bits < 2 ^ 64 ->
  pad host (mkIO blk [] bits PAD0)
  = (1, mkIO (repeat 0 56 ++ encode host 8 bits) [] bits FINISH).
Proof.
  intros Hblk Hr. unfold pad. cbn [M infile nobits status].
  now rewrite pad_only_block by (auto; lia).
Qed.

Lemma Program_md5_finish (blk : list Z) (bits : Z) :
  length blk = 64%nat -> 0 <= bits < 2 ^ 64 ->
  pad host (mkIO blk [] bits FINISH) = (0, mkIO blk [] bits FINISH).
Proof. reflexivity. Qed.

End Program_md5_transitions.

Section Finalizing_padding_transitions.

Import Finalizing_padding.
Variable host : endianness.

Lemma Finalizing_padding_full (blk file : list Z) (bits : Z) :
  length blk = 64%nat -> (64 <= length file)%nat -> 0 <= bits < 2 ^ 64 ->
  nextblock host (mkIO blk file bits READ)
  = (1, mkIO (firstn 64 file) (skipn 64 file) (bump 0 bits 64) READ).
Proof.
  intros Hblk Hn Hr. unfold nextblock. cbn [M infile nobits status].
  rewrite fread_full by assumption. cbv beta iota.
  now rewrite Nat.eqb_refl, bump_rate0.
Qed.

Lemma Finalizing_padding_short (blk file : list Z) (bits : Z) :
  length blk = 64%nat -> (length file < 56)%nat -> 0 <= bits < 2 ^ 64 ->
  nextblock host (mkIO blk file bits READ)
  = (1, mkIO (file ++ [0x80] ++ repeat 0 (55 - length file)
                ++ encode host 8 (bump 0 bits (length file)))
             [] (bump 0 bits (length file)) FINISH).
Proof.
  intros Hblk Hn Hr. unfold nextblock. cbn [M infile nobits status].
  rewrite fread_all by lia. cbv beta iota.
  replace (length file =? 64)%nat with false by (symmetry; apply Nat.eqb_neq; lia).
  replace (length file <? 56)%nat with true by ltb_true.
  now rewrite short_block, bump_rate0 by assumption.
Qed.

Lemma Finalizing_padding_long (blk file : list Z) (bits : Z) :
  length blk = 64%nat -> (56 <= length file < 64)%nat -> 0 <= bits < 2 ^ 64 ->
  nextblock host (mkIO blk file bits READ)
  = (1, mkIO (file ++ [0x80] ++ repeat 0 (63 - length file))
             [] (bump 0 bits (length file)) PAD0).
Proof.
  intros Hblk Hn Hr. unfold nextblock. cbn [M infile nobits status].
  rewrite fread_all by lia. cbv beta iota.
  replace (length file =? 64)%nat with false by (symmetry; apply Nat.eqb_neq; lia).
  replace (length file <? 56)%nat with false by ltb_false.
  now rewrite long_block, bump_rate0 by assumption.
Qed.

Lemma Finalizing_padding_pad0 (blk : list Z) (bits : Z) :
  length blk = 64%nat -> 0 <= bits < 2 ^ 64 ->
  nextblock host (mkIO blk [] bits PAD0)
  = (1, mkIO (repeat 0 56 ++ encode host 8 bits) [] bits FINISH).
Proof.
  intros Hblk Hr. unfold nextblock. cbn [M infile nobits status].
  now rewrite pad_only_block by (auto; lia).
Qed.

Lemma Finalizing_padding_finish (blk : list Z) (bits : Z) :
  length blk = 64%nat -> 0 <= bits < 2 ^ 64 ->
  nextblock host (mkIO blk [] bits FINISH) = (0, mkIO blk [] bits FINISH).
Proof. reflexivity. Qed.

End Finalizing_padding_transitions.

(** ** Every run of a padding loop ends, with a well-formed padded stream *)

Lemma fuel_enough (data : list Z) : (length data / 64 + 3 <= fuel_for data)%nat.
Proof. unfold fuel_for. lia. Qed.

Lemma Part_000_blocks_padded (host : endianness) (garbage : nat -> Z) (data : list Z) :
  exists bs st,
    Part_000.blocks host garbage data = Some (bs, st)
    /\ padded Part_000.FINISH host 8 data 0 bs st.
Proof.
  apply (loop_blocks Part_000.READ Part_000.PAD0 Part_000.FINISH
           (Part_000.nextblock host) host 8
           (Part_000_full host) (Part_000_short host) (Part_000_long host)
           (Part_000_pad0 host) (Part_000_finish host)
           (fuel_for data) data (uninit garbage) 0 []);
    [apply uninit_length | lia | apply fuel_enough].
Qed.

Lemma Program_md5_blocks_padded (host : endianness) (garbage : nat -> Z) (data : list Z) :
  exists bs st,
    Program_md5.blocks host garbage data = Some (bs, st)
    /\ padded Program_md5.FINISH host 8 data 0 bs st.
Proof.
  apply (loop_blocks Program_md5.READ Program_md5.PAD0 Program_md5.FINISH
           (Program_md5.pad host) host 8
           (Program_md5_full host) (Program_md5_short host) (Program_md5_long host)
           (Program_md5_pad0 host) (Program_md5_finish host)
           (fuel_for data) data (uninit garbage) 0 []);
    [apply uninit_length | lia | apply fuel_enough].
Qed.

Lemma Finalizing_padding_blocks_padded (host : endianness) (garbage : nat -> Z)
    (data : list Z) :
  exists bs st,
    Finalizing_padding.blocks host garbage data = Some (bs, st)
    /\ padded Finalizing_padding.FINISH host 0 data 0 bs st.
Proof.
  apply (loop_blocks Finalizing_padding.READ Finalizing_padding.PAD0
           Finalizing_padding.FINISH
           (Finalizing_padding.nextblock host) host 0
           (Finalizing_padding_full host) (Finalizing_padding_short host)
           (Finalizing_padding_long host)
           (Finalizing_padding_pad0 host) (Finalizing_padding_finish host)
           (fuel_for data) data (uninit garbage) 0 []);
    [apply uninit_length | lia | apply fuel_enough].
Qed.

(** ** Byte order round trip *)

Lemma le_decode_encode (n : nat) : forall v, le_decode (le_encode n v) = v mod 256 ^ Z.of_nat n.
Proof.
  induction n as [|n IH]; intros v.
  - simpl. now rewrite Z.mod_1_r.
  - cbn [le_encode le_decode]. rewrite IH, Nat2Z.inj_succ, Z.pow_succ_r by lia.
    rewrite Z.rem_mul_r by lia. reflexivity.
Qed.

Lemma decode_encode (e : endianness) (n : nat) (v : Z) :
  decode e (encode e n v) = v mod 256 ^ Z.of_nat n.
Proof.
  destruct e; simpl; [|rewrite rev_involutive]; apply le_decode_encode.
Qed.

Lemma decode_encode64 (e : endianness) (v : Z) : decode e (encode e 8 v) = wrap64 v.
Proof. rewrite decode_encode. reflexivity. Qed.

(** ** Shape of a padded stream *)

Lemma count_occ_zeros (k : nat) : count_occ Z.eq_dec (repeat 0 k) 0x80 = 0%nat.
Proof.
  induction k as [|k IH]; [reflexivity|].
  cbn [repeat]. rewrite count_occ_cons_neq by discriminate. exact IH.
Qed.

Lemma concat_length64 (bs : list (list Z)) :
  Forall (fun b => length b = 64%nat) bs -> length (concat bs) = (64 * length bs)%nat.
Proof.
  induction 1 as [|b bs Hb _ IH]; [reflexivity|].
  cbn [concat length]. rewrite length_app, Hb, IH. lia.
Qed.

Lemma padded_one_marker {flag : Type} (FINISH : flag) (host : endianness) (rate : Z)
    (data : list Z) (bits : Z) (bs : list (list Z)) (st : io flag) :
  padded FINISH host rate data bits bs st -> one_marker data (concat bs).
Proof.
  intros (Hcat & Hall & Hlen & _ & _).
  pose proof (concat_length64 bs Hall) as Hl.
  assert (Hpos : (0 < length bs)%nat).
  { rewrite Hlen. unfold block_count. destruct (_ <? _)%nat; lia. }
  split; [|split; [|split]].
  - eexists. split; [|exact Hcat]. apply encode_length.
  - unfold inserted_padding. rewrite Hcat.
    rewrite skipn_app, skipn_all, Nat.sub_diag. cbn [skipn app].
    rewrite length_app. cbn [length]. rewrite length_app, repeat_length, encode_length.
    replace (length data + S (pad_zeros (length data) + 8) - length data - 8)%nat
      with (length (0x80 :: repeat 0 (pad_zeros (length data))))
      by (cbn [length]; rewrite repeat_length; lia).
    change (128 :: repeat 0 (pad_zeros (length data)) ++ ?e)
      with ((128 :: repeat 0 (pad_zeros (length data))) ++ e).
    rewrite firstn_app, firstn_all, Nat.sub_diag, firstn_O, app_nil_r.
    rewrite count_occ_cons_eq by reflexivity. now rewrite count_occ_zeros.
  - lia.
  - rewrite Hl, Nat.mul_comm. apply Nat.Div0.mod_mul.
Qed.

Lemma fread_short_count (buf file blk rest : list Z) (n : nat) :
  fread buf 64 file = (n, blk, rest) -> (n < 56)%nat -> length file = n.
Proof.
  unfold fread. intros Heq Hn.
  apply (f_equal (fun p => fst (fst p))) in Heq. cbn [fst] in Heq. lia.
Qed.

Lemma short_padded_intro {flag : Type} (FINISH : flag) (host : endianness)
    (file : list Z) (bits bits' : Z) :
  (length file < 56)%nat -> bits' = wrap64 (bits + 8 * Z.of_nat (length file)) ->
  short_padded FINISH host file bits
    (1, mkIO (file ++ [0x80] ++ repeat 0 (55 - length file) ++ encode host 8 bits')
             [] bits' FINISH).
Proof.
  intros Hn Hb. unfold short_padded. cbn [fst snd M nobits status].
  split; [|split; [|split; [|split; [|split; [|split]]]]]; auto.
  - rewrite firstn_app, firstn_all, Nat.sub_diag, firstn_O. apply app_nil_r.
  - rewrite app_nth2 by lia. now rewrite Nat.sub_diag.
  - intros i Hi. rewrite app_nth2 by lia.
    replace (i - length file)%nat with (S (i - length file - 1)) by lia.
    cbn [app nth]. rewrite app_nth1 by (rewrite repeat_length; lia).
    apply nth_repeat.
  - rewrite !app_assoc. unfold length_field.
    rewrite skipn_app, skipn_all2;
      rewrite !length_app, repeat_length; cbn [length]; [|lia].
    replace (56 - _)%nat with 0%nat by lia. reflexivity.
Qed.

Lemma blocks_of_empty {flag : Type} (FINISH : flag) (host : endianness) (rate : Z)
    (bs : list (list Z)) (st : io flag) :
  padded FINISH host rate [] 0 bs st ->
  bs = [empty_block] /\ st = mkIO empty_block [] 0 FINISH.
Proof.
  intros (Hcat & _ & Hlen & _ & Hst).
  change (length (@nil Z)) with 0%nat in *.
  assert (Hb : bump rate 0 0 = 0) by (apply bump_0; lia).
  rewrite Hb in *.
  destruct bs as [|b [|b' bs]]; try discriminate.
  cbn [concat last] in *. rewrite app_nil_r in Hcat. subst b.
  assert (Hblk : [] ++ [128] ++ repeat 0 (pad_zeros 0) ++ encode host 8 0 = empty_block)
    by (destruct host; reflexivity).
  rewrite Hblk in Hst. now rewrite Hblk.
Qed.

(** ** The loop of main, for any loop body *)

Lemma while_blocks_collect {flag : Type} (next : io flag -> Z * io flag) (fuel : nat) :
  forall (st : io flag) (acc : list (list Z)),
    while_blocks next collect fuel st acc
    = match while_blocks next collect fuel st [] with
      | Some (bs, st') => Some (acc ++ bs, st')
      | None => None
      end.
Proof.
  induction fuel as [|fuel IH]; intros st acc; [reflexivity|].
  cbn [while_blocks]. destruct (next st) as [r st1].
  destruct (r =? 0).
  - now rewrite app_nil_r.
  - rewrite (IH st1 (collect (M st1) acc)), (IH st1 (collect (M st1) [])).
    destruct (while_blocks next collect fuel st1 []) as [[bs st2]|]; [|reflexivity].
    unfold collect. now rewrite <- app_assoc.
Qed.

(* the loop applies its body to the collected blocks, in order *)
Lemma while_blocks_fold {flag A : Type} (next : io flag -> Z * io flag)
    (body : list Z -> A -> A) (fuel : nat) :
  forall (st : io flag) (acc : A) (bs : list (list Z)) (st' : io flag),
    while_blocks next collect fuel st [] = Some (bs, st') ->
    while_blocks next body fuel st acc = Some (fold_left (fun a b => body b a) bs acc, st').
Proof.
  induction fuel as [|fuel IH]; intros st acc bs st' Hrun; [discriminate|].
  cbn [while_blocks] in *. destruct (next st) as [r st1].
  destruct (r =? 0).
  - injection Hrun as <- <-. reflexivity.
  - rewrite while_blocks_collect in Hrun.
    destruct (while_blocks next collect fuel st1 []) as [[bs1 st2]|] eqn:Hrun1;
      [|discriminate].
    injection Hrun as <- <-.
    rewrite (IH st1 (body (M st1) acc) bs1 st2 Hrun1). reflexivity.
Qed.

(** ** Loops that can fault *)

Lemma for_range_invariant {A : Type} (P : A -> Prop) (body : nat -> A -> A) :
  (forall i x, P x -> P (body i x)) ->
  forall lo hi a, P a -> P (for_range lo hi body a).
Proof.
  intros Hbody lo hi. unfold for_range.
  generalize (seq lo (hi - lo)) as l.
  induction l as [|i l IH]; intros a Ha; simpl; auto.
Qed.

Lemma for_rangeM_empty {A : Type} (lo hi : nat) (body : nat -> A -> checked A) (a : A) :
  (hi <= lo)%nat -> for_rangeM lo hi body a = ret a.
Proof.
  intros Hle. unfold for_rangeM.
  replace (hi - lo)%nat with 0%nat by lia. reflexivity.
Qed.

Lemma for_rangeM_S {A : Type} (lo hi : nat) (body : nat -> A -> checked A) (a : A) :
  (lo <= hi)%nat ->
  for_rangeM lo (S hi) body a = (x <- for_rangeM lo hi body a ;; body hi x).
Proof.
  intros Hle. unfold for_rangeM.
  replace (S hi - lo)%nat with (S (hi - lo)) by lia.
  rewrite seq_S, fold_left_app. cbn [fold_left].
  replace (lo + (hi - lo))%nat with hi by lia. reflexivity.
Qed.

(* once a fault, always that fault *)
Lemma fault_sticks {A : Type} (body : nat -> A -> checked A) (flt : fault) (l : list nat) :
  fold_left (fun acc t => x <- acc ;; body t x) l (inl flt) = inl flt.
Proof. induction l as [|t l IH]; [reflexivity | exact IH]. Qed.

Lemma for_rangeM_fault {A : Type} (lo t hi : nat) (body : nat -> A -> checked A)
    (a x : A) (flt : fault) :
  (lo <= t < hi)%nat ->
  for_rangeM lo t body a = inr x -> body t x = inl flt ->
  for_rangeM lo hi body a = inl flt.
Proof.
  intros Ht Hpre Hbody. unfold for_rangeM in *.
  replace (hi - lo)%nat with ((t - lo) + S (hi - S t))%nat by lia.
  rewrite seq_app, fold_left_app, Hpre. cbn [seq fold_left].
  replace (lo + (t - lo))%nat with t by lia.
  cbn [bind]. rewrite Hbody. apply fault_sticks.
Qed.

Lemma for_rangeM_total {A : Type} (body : nat -> A -> checked A) (n : nat) :
  (forall t x, (t < n)%nat -> exists y, body t x = inr y) ->
  forall a, exists y, for_rangeM 0 n body a = inr y.
Proof.
  induction n as [|n IH]; intros Hbody a.
  - exists a. reflexivity.
  - destruct IH with (a := a) as (x & Hx); [intros; apply Hbody; lia|].
    destruct (Hbody n x) as (y & Hy); [lia|].
    exists y. rewrite for_rangeM_S by lia. now rewrite Hx.
Qed.

(** ** The message schedule and the rounds of nexthash *)

Section Nexthash.

Import Finalizing_padding.

Lemma read_K_in_range (t : nat) : (t < 64)%nat -> exists k, read_K t = inr k.
Proof.
  intros Ht. unfold read_K.
  destruct (nth_error K t) as [k|] eqn:Hk; [now exists k|].
  apply nth_error_None in Hk. change (length K) with 64%nat in Hk. lia.
Qed.

Lemma read_K_64 : read_K 64 = inl (OutOfBounds "K" 64).
Proof. reflexivity. Qed.

(* the extension loop has the bounds 16 and 16 and does nothing *)
Lemma schedule_from_eq (W0 : list (option Z)) (host : endianness) (blk : list Z) :
  schedule_from W0 host blk
  = ret (for_range 0 16 (fun t W => upd t (Some (threetwo host blk t)) W) W0).
Proof. unfold schedule_from. now rewrite for_rangeM_empty by lia. Qed.

Lemma first_loop_fresh (f : nat -> Z) :
  for_range 0 16 (fun t W => upd t (Some (f t)) W) (repeat None 64)
  = map (fun t => Some (f t)) (seq 0 16) ++ repeat None 48.
Proof. reflexivity. Qed.

Lemma first_loop_stale (f w : nat -> Z) :
  for_range 0 16 (fun t W => upd t (Some (f t)) W) (stale w)
  = map (fun t => Some (f t)) (seq 0 16) ++ map (fun t => Some (w t)) (seq 16 48).
Proof. reflexivity. Qed.

Lemma read_W_first (f : nat -> Z) (rest : list (option Z)) (t : nat) :
  (t < 16)%nat ->
  read_W (map (fun t => Some (f t)) (seq 0 16) ++ rest) t = inr (f t).
Proof.
  intros Ht. unfold read_W.
  rewrite nth_error_app1 by (rewrite length_map, length_seq; lia).
  rewrite nth_error_map, nth_error_seq.
  replace (t <? 16)%nat with true by ltb_true. reflexivity.
Qed.

Lemma read_W_fresh_16 (f : nat -> Z) :
  read_W (map (fun t => Some (f t)) (seq 0 16) ++ repeat None 48) 16
  = inl (UninitRead "W" 16).
Proof. reflexivity. Qed.

Lemma read_W_stale (f w : nat -> Z) (t : nat) :
  (t < 64)%nat ->
  exists x,
    read_W (map (fun t => Some (f t)) (seq 0 16) ++ map (fun t => Some (w t)) (seq 16 48)) t
    = inr x.
Proof.
  intros Ht. destruct (Nat.ltb_spec t 16) as [Hlo | Hhi].
  - exists (f t). now apply read_W_first.
  - exists (w t). unfold read_W.
    rewrite nth_error_app2 by (rewrite length_map, length_seq; lia).
    rewrite length_map, length_seq, nth_error_map, nth_error_seq.
    replace (t - 16 <? 48)%nat with true by ltb_true.
    replace (16 + (t - 16))%nat with t by lia. reflexivity.
Qed.

Lemma rounds_first_16 (f : nat -> Z) (rest : list (option Z)) (v : locals) :
  exists v16, rounds (map (fun t => Some (f t)) (seq 0 16) ++ rest) 16 v = inr v16.
Proof.
  apply for_rangeM_total. intros t x Ht. unfold round.
  destruct (read_K_in_range t) as (k & ->); [lia|].
  rewrite read_W_first by assumption. cbn [bind ret]. eauto.
Qed.

Lemma rounds_fresh (f : nat -> Z) (v : locals) :
  rounds (map (fun t => Some (f t)) (seq 0 16) ++ repeat None 48) 65 v
  = inl (UninitRead "W" 16).
Proof.
  destruct (rounds_first_16 f (repeat None 48) v) as (v16 & H16).
  apply (for_rangeM_fault 0 16 65 _ v v16); [lia | exact H16 |].
  unfold round. destruct (read_K_in_range 16) as (k & ->); [lia|].
  cbn [bind]. now rewrite read_W_fresh_16.
Qed.

Lemma rounds_stale (f w : nat -> Z) (v : locals) :
  rounds (map (fun t => Some (f t)) (seq 0 16) ++ map (fun t => Some (w t)) (seq 16 48)) 65 v
  = inl (OutOfBounds "K" 64).
Proof.
  destruct (for_rangeM_total
              (round (map (fun t => Some (f t)) (seq 0 16)
                        ++ map (fun t => Some (w t)) (seq 16 48))) 64)
    with (a := v) as (v64 & H64).
  { intros t x Ht. unfold round.
    destruct (read_K_in_range t) as (k & ->); [lia|].
    destruct (read_W_stale f w t Ht) as (y & ->). cbn [bind ret]. eauto. }
  apply (for_rangeM_fault 0 64 65 _ v v64); [lia | exact H64 |].
  unfold round. now rewrite read_K_64.
Qed.

End Nexthash.

(** ** The two MD5 round functions side by side *)

(* the columns of the 64 lines of md5.c are the tables of the loop-based
   file, except the column of shift entries *)
Lemma body_columns :
  map Program_md5.fn Program_md5.body = map group_macro (seq 0 64)
  /\ map (fun cl => reg_index (Program_md5.arg_a cl)) Program_md5.body = Part_000.AA
  /\ map (fun cl => reg_index (Program_md5.arg_b cl)) Program_md5.body = Part_000.BB
  /\ map (fun cl => reg_index (Program_md5.arg_c cl)) Program_md5.body = Part_000.CC
  /\ map (fun cl => reg_index (Program_md5.arg_d cl)) Program_md5.body = Part_000.DD
  /\ map Program_md5.m_index Program_md5.body = Part_000.MM
  /\ map Program_md5.t_index Program_md5.body = seq 0 64
  /\ map Program_md5.s_index Program_md5.body = seq 0 48 ++ repeat 47%nat 16.
Proof. repeat split. Qed.

Section Md5_rounds.

Variable host : endianness.
Variable blk : list Z.

Lemma sel_regs_list (r : Program_md5.reg) (v : Program_md5.regs) :
  sel (regs_list v) (reg_index r) = Program_md5.get r v.
Proof. destruct r; reflexivity. Qed.

Lemma upd_regs_list (r : Program_md5.reg) (x : Z) (v : Program_md5.regs) :
  upd (reg_index r) x (regs_list v) = regs_list (Program_md5.set r x v).
Proof. destruct r; reflexivity. Qed.

(* a macro applied to H[..] lvalues and to local variables *)
Lemma transform_exec (cl : Program_md5.invocation) (v : Program_md5.regs) :
  Part_000.transform (Program_md5.aux (Program_md5.fn cl))
    (reg_index (Program_md5.arg_a cl)) (reg_index (Program_md5.arg_b cl))
    (reg_index (Program_md5.arg_c cl)) (reg_index (Program_md5.arg_d cl))
    (threetwo host blk (Program_md5.m_index cl))
    (sel Program_md5.S (Program_md5.s_index cl))
    (sel Program_md5.T (Program_md5.t_index cl))
    (regs_list v)
  = regs_list (Program_md5.exec host blk cl v).
Proof.
  unfold Part_000.transform, Program_md5.exec.
  rewrite !sel_regs_list, upd_regs_list, !sel_regs_list, upd_regs_list.
  reflexivity.
Qed.

Lemma round_transform (i : nat) (Hs : list Z) :
  Part_000.round host blk i Hs
  = Part_000.transform (Program_md5.aux (group_macro i))
      (nth i Part_000.AA O) (nth i Part_000.BB O) (nth i Part_000.CC O)
      (nth i Part_000.DD O) (threetwo host blk (nth i Part_000.MM O))
      (sel Part_000.S i) (sel Part_000.T i) Hs.
Proof.
  unfold Part_000.round, group_macro.
  destruct (i <? 16)%nat; [reflexivity|].
  destruct (i <? 32)%nat; [reflexivity|].
  destruct (i <? 48)%nat; reflexivity.
Qed.

(* iteration i of the loop is line i of md5.c, up to the shift entry *)
Lemma round_is_line (i : nat) (v : Program_md5.regs) :
  (i < 64)%nat ->
  Part_000.round host blk i (regs_list v)
  = regs_list (Program_md5.exec host blk (own_shift (nth i Program_md5.body line0)) v).
Proof.
  intros Hi.
  destruct body_columns as (Hfn & Ha & Hb & Hc & Hd & Hm & Ht & _).
  rewrite round_transform, <- transform_exec.
  rewrite <- Ha, <- Hb, <- Hc, <- Hd, <- Hm.
  change O with (reg_index (Program_md5.arg_a line0)) at 1.
  rewrite (map_nth (fun cl => reg_index (Program_md5.arg_a cl))).
  change (nth i (map (fun cl => reg_index (Program_md5.arg_b cl)) Program_md5.body) O)
    with (nth i (map (fun cl => reg_index (Program_md5.arg_b cl)) Program_md5.body)
            (reg_index (Program_md5.arg_b line0))).
  rewrite (map_nth (fun cl => reg_index (Program_md5.arg_b cl))).
  change (nth i (map (fun cl => reg_index (Program_md5.arg_c cl)) Program_md5.body) O)
    with (nth i (map (fun cl => reg_index (Program_md5.arg_c cl)) Program_md5.body)
            (reg_index (Program_md5.arg_c line0))).
  rewrite (map_nth (fun cl => reg_index (Program_md5.arg_c cl))).
  change (nth i (map (fun cl => reg_index (Program_md5.arg_d cl)) Program_md5.body) O)
    with (nth i (map (fun cl => reg_index (Program_md5.arg_d cl)) Program_md5.body)
            (reg_index (Program_md5.arg_d line0))).
  rewrite (map_nth (fun cl => reg_index (Program_md5.arg_d cl))).
  change (nth i (map Program_md5.m_index Program_md5.body) O)
    with (nth i (map Program_md5.m_index Program_md5.body) (Program_md5.m_index line0)).
  rewrite (map_nth Program_md5.m_index).
  assert (Hti : Program_md5.t_index (nth i Program_md5.body line0) = i).
  { rewrite <- (map_nth Program_md5.t_index), Ht. cbn [Program_md5.t_index line0].
    now rewrite seq_nth. }
  assert (Hfi : Program_md5.fn (nth i Program_md5.body line0) = group_macro i).
  { rewrite <- (map_nth Program_md5.fn), Hfn.
    change (Program_md5.fn line0) with (group_macro 0).
    now rewrite map_nth, seq_nth. }
  unfold own_shift at 1 2 3 4 5 6 7 8.
  cbn [Program_md5.fn Program_md5.arg_a Program_md5.arg_b Program_md5.arg_c
       Program_md5.arg_d Program_md5.m_index Program_md5.s_index Program_md5.t_index].
  rewrite Hti, Hfi. reflexivity.
Qed.

Lemma fold_lines (l : list Program_md5.invocation) :
  forall (lo : nat) (v : Program_md5.regs),
    (forall i w, (i < length l)%nat ->
       Part_000.round host blk (lo + i) (regs_list w)
       = regs_list (Program_md5.exec host blk (nth i l line0) w)) ->
    fold_left (fun acc i => Part_000.round host blk i acc) (seq lo (length l)) (regs_list v)
    = regs_list (fold_left (fun w cl => Program_md5.exec host blk cl w) l v).
Proof.
  induction l as [|cl l IH]; intros lo v Hstep; [reflexivity|].
  cbn [length seq fold_left].
  pose proof (Hstep 0%nat v) as H0. rewrite Nat.add_0_r in H0.
  rewrite H0 by (cbn [length]; lia). cbn [nth].
  apply IH. intros i w Hi.
  replace (S lo + i)%nat with (lo + S i)%nat by lia.
  apply (Hstep (S i) w). cbn [length]. lia.
Qed.

Lemma rounds_are_lines (v : Program_md5.regs) :
  Part_000.rounds host blk (regs_list v)
  = regs_list (fold_left (fun w cl => Program_md5.exec host blk cl w)
                 (map own_shift Program_md5.body) v).
Proof.
  unfold Part_000.rounds, for_range.
  replace (64 - 0)%nat with (length (map own_shift Program_md5.body)) by reflexivity.
  apply fold_lines. intros i w Hi.
  rewrite length_map in Hi. change (length Program_md5.body) with 64%nat in Hi.
  change line0 with (own_shift line0) at 1. rewrite map_nth.
  now apply round_is_line.
Qed.

(* md5 of the loop-based file: the registers after the rounds plus the
   state before them *)
Lemma Part_000_md5_eq (h0 h1 h2 h3 : Z) :
  Part_000.md5 host blk [h0; h1; h2; h3]
  = let v := fold_left (fun w cl => Program_md5.exec host blk cl w)
               (map own_shift Program_md5.body) (Program_md5.mkRegs h0 h1 h2 h3) in
    [add32 (Program_md5.reg_a v) h0; add32 (Program_md5.reg_b v) h1;
     add32 (Program_md5.reg_c v) h2; add32 (Program_md5.reg_d v) h3].
Proof.
  unfold Part_000.md5.
  replace (Part_000.rounds host blk [h0; h1; h2; h3])
    with (Part_000.rounds host blk (regs_list (Program_md5.mkRegs h0 h1 h2 h3)))
    by reflexivity.
  rewrite rounds_are_lines. reflexivity.
Qed.

End Md5_rounds.

(** * The claims *)

(** C1.  For the empty input the digest should be the published one,
    d41d8cd98f00b204e9800998ecf8427e for MD5 and e3b0c442...7852b855 for
    SHA-256.  The programs do not deliver it: [Program/md5.c] never calls
    its md5 and prints the untouched zero words of output[], and nexthash
    of [Finalizing_padding.c] reads W[16], which was never written.  Only
    the final state of the loop-based file, which is never printed, holds
    the published MD5 digest (on a little-endian host). *)
Theorem C1_empty_input_digests (host : endianness) (garbage : nat -> Z) :
  Program_md5.main host garbage [] = Some ("00000000" ++ newline)%string
  /\ Finalizing_padding.main host garbage [] = Some (inl (UninitRead "W" 16))
  /\ (exists Hs st,
        Part_000.main_loop LittleEndian garbage [] = Some (Hs, st)
        /\ assemble LittleEndian Hs = md5_of_empty).
Proof.
  split; [|split].
  - destruct host; vm_compute; reflexivity.
  - destruct host; vm_compute; reflexivity.
  - eexists _, _. split; vm_compute; reflexivity.
Qed.

(** C2.  The message schedule should hold the 16 big-endian words of the
    block and, for t in 16..63, sig_one(W[t-2]) + W[t-7] + sig_zero(W[t-15])
    + W[t-16].  In nexthash the extension loop runs from 16 while t < 16:
    W[16..63] are never assigned, and W[0..15] are the words in the byte
    order of the host (0x00000080 instead of 0x80000000 for the first word
    of the padded empty message on a little-endian host). *)
Theorem C2_schedule_is_never_extended (host : endianness) (blk : list Z) :
  Finalizing_padding.schedule host blk
  = inr (map (fun t => Some (threetwo host blk t)) (seq 0 16) ++ repeat None 48)
  /\ threetwo LittleEndian empty_block 0 = 0x00000080
  /\ threetwo BigEndian empty_block 0 = 0x80000000.
Proof.
  split; [|split; reflexivity].
  unfold Finalizing_padding.schedule.
  now rewrite schedule_from_eq, first_loop_fresh.
Qed.

(** C3.  The compression should run 64 rounds and add a..h into H[0..7]
    once, after the last round, each register into its own slot.  In
    nexthash the additions are inside the loop body, so H changes in every
    round; H[7] receives f instead of h; and the loop runs for t = 0..64,
    whose last round reads K[64]. *)
Theorem C3_state_updated_in_every_round_and_cross_wired :
  (forall k w a b c d e f g h h0 h1 h2 h3 h4 h5 h6 h7,
     let v := Finalizing_padding.round_step k w
                (Finalizing_padding.mkLocals a b c d e f g h [h0; h1; h2; h3; h4; h5; h6; h7]) in
     Finalizing_padding.vH v
     = [add32 h0 (Finalizing_padding.va v); add32 h1 (Finalizing_padding.vb v);
        add32 h2 (Finalizing_padding.vc v); add32 h3 (Finalizing_padding.vd v);
        add32 h4 (Finalizing_padding.ve v); add32 h5 (Finalizing_padding.vf v);
        add32 h6 (Finalizing_padding.vg v); add32 h7 (Finalizing_padding.vf v)])
  /\ (forall W v,
        Finalizing_padding.rounds W 65 v
        = (x <- Finalizing_padding.rounds W 64 v ;; Finalizing_padding.round W 64 x))
  /\ (forall W x, Finalizing_padding.round W 64 x = inl (OutOfBounds "K" 64))
  /\ (exists v1,
        Finalizing_padding.rounds
          (map (fun t => Some (threetwo LittleEndian empty_block t)) (seq 0 16)
             ++ repeat None 48) 1
          (Finalizing_padding.load Finalizing_padding.H_init) = inr v1
        /\ Finalizing_padding.vH v1 <> Finalizing_padding.H_init
        /\ sel (Finalizing_padding.vH v1) 7
           = add32 (sel Finalizing_padding.H_init 7) (Finalizing_padding.vf v1)
        /\ sel (Finalizing_padding.vH v1) 7
           <> add32 (sel Finalizing_padding.H_init 7) (Finalizing_padding.vh v1)).
Proof.
  split; [|split; [|split]].
  - reflexivity.
  - intros W v. unfold Finalizing_padding.rounds. now rewrite for_rangeM_S by lia.
  - reflexivity.
  - eexists. split; [vm_compute; reflexivity|].
    split; [|split]; vm_compute; congruence.
Qed.

(** C4.  Every MD5 round should use its own constant T[t], its own shift
    S[t] and the message word of its group's permutation; the last sixteen
    rounds should use the sixteen entries S[48..63] (6, 10, 15, 21 four
    times).  In [Program/md5.c] the lines of the fourth round all pass
    S[47] = 23, so the registers after the 64 invocations differ from
    those of the loop-based file, which passes S[i]. *)
Theorem C4_final_group_repeats_one_shift :
  map Program_md5.s_index (skipn 48 Program_md5.body) = repeat 47%nat 16
  /\ map (fun cl => sel Program_md5.S (Program_md5.s_index cl)) (skipn 48 Program_md5.body)
     = repeat 23 16
  /\ skipn 48 Program_md5.S = [6; 10; 15; 21; 6; 10; 15; 21; 6; 10; 15; 21; 6; 10; 15; 21]
  /\ map Program_md5.t_index Program_md5.body = seq 0 64
  /\ map Program_md5.m_index Program_md5.body = Part_000.MM
  /\ regs_list (Program_md5.registers LittleEndian
                  [Program_md5.A; Program_md5.B; Program_md5.C; Program_md5.D] empty_block)
     <> Part_000.rounds LittleEndian empty_block
          [Part_000.A; Part_000.B; Part_000.C; Part_000.D].
Proof.
  repeat (split; [reflexivity|]).
  vm_compute. congruence.
Qed.

(** C5.  After the rounds the chaining state should become state[i] plus
    register i, and that state should be passed to the next block.  md5 of
    [Program/md5.c] never assigns to state[]: it adds the registers to the
    global output[] and returns state[] as it received it. *)
Theorem C5_md5_c_leaves_state_unchanged :
  (forall host state blk output,
     fst (Program_md5.md5 host state blk output) = state)
  /\ (let IV := [Program_md5.A; Program_md5.B; Program_md5.C; Program_md5.D] in
      let v := Program_md5.registers LittleEndian IV empty_block in
      let r := Program_md5.md5 LittleEndian IV empty_block [0; 0; 0; 0] in
      fst r = IV
      /\ snd r = regs_list v
      /\ fst r <> [add32 (sel IV 0) (Program_md5.reg_a v); add32 (sel IV 1) (Program_md5.reg_b v);
                   add32 (sel IV 2) (Program_md5.reg_c v); add32 (sel IV 3) (Program_md5.reg_d v)]).
Proof.
  split; [reflexivity|].
  split; [reflexivity|]. split; [vm_compute; reflexivity|].
  vm_compute. congruence.
Qed.

(** C6.  A compression function should be a pure transform of (state,
    block) that consults and mutates no global buffer.  md5 of
    [Program/md5.c] adds its registers to the global output[]: what a call
    leaves there depends on what the calls before it left, and two calls
    with the same state and block leave different contents. *)
Theorem C6_md5_c_accumulates_in_global_output :
  (forall host state blk o0 o1 o2 o3,
     let v := Program_md5.registers host state blk in
     snd (Program_md5.md5 host state blk [o0; o1; o2; o3])
     = [add32 o0 (Program_md5.reg_a v); add32 o1 (Program_md5.reg_b v);
        add32 o2 (Program_md5.reg_c v); add32 o3 (Program_md5.reg_d v)])
  /\ (let IV := [Program_md5.A; Program_md5.B; Program_md5.C; Program_md5.D] in
      let out1 := snd (Program_md5.md5 LittleEndian IV empty_block [0; 0; 0; 0]) in
      let out2 := snd (Program_md5.md5 LittleEndian IV empty_block out1) in
      out1 <> out2).
Proof.
  split; [reflexivity|].
  vm_compute. congruence.
Qed.

(** C7.  When the padder, in its READ state, reads n < 56 bytes (n = 0 for
    the empty input), the block it emits holds the bytes read, 0x80 at
    byte n, zeros in bytes n+1..55 and the updated bit count in bytes
    56..63, and the status becomes FINISH; so the empty message gives
    exactly one padding block, after which the loop of main ends.  Holds
    for pad of [Program/md5.c] and for nextblock of the loop-based file. *)
Theorem C7_short_read_is_padded_in_place (host : endianness) (blk file : list Z) (bits : Z)
    (n : nat) (blk' rest : list Z) (garbage : nat -> Z) :
  length blk = 64%nat ->
  fread blk 64 file = (n, blk', rest) -> (n < 56)%nat ->
  length file = n
  /\ short_padded Program_md5.FINISH host file bits
       (Program_md5.pad host (mkIO blk file bits Program_md5.READ))
  /\ short_padded Part_000.FINISH host file bits
       (Part_000.nextblock host (mkIO blk file bits Part_000.READ))
  /\ Program_md5.blocks host garbage []
     = Some ([empty_block], mkIO empty_block [] 0 Program_md5.FINISH)
  /\ Part_000.blocks host garbage []
     = Some ([empty_block], mkIO empty_block [] 0 Part_000.FINISH).
Proof.
  intros Hblk Hread Hn.
  pose proof (fread_short_count blk file blk' rest n Hread Hn) as Hlen.
  assert (Hlt : (length file < 56)%nat) by lia.
  split; [exact Hlen|]. split; [|split; [|split]].
  - unfold Program_md5.pad. cbn [M infile nobits status].
    rewrite fread_all by lia. cbv beta iota.
    replace (length file <? 56)%nat with true by ltb_true.
    rewrite short_block by assumption.
    apply short_padded_intro; [assumption|].
    rewrite bump_nested. reflexivity.
  - unfold Part_000.nextblock. cbn [M infile nobits status].
    rewrite fread_all by lia. cbv beta iota.
    replace (length file <? 56)%nat with true by ltb_true.
    rewrite short_block by assumption.
    apply short_padded_intro; [assumption|].
    rewrite bump_swap. reflexivity.
  - destruct (Program_md5_blocks_padded host garbage []) as (bs & st & Hrun & Hpad).
    apply blocks_of_empty in Hpad. destruct Hpad as [-> ->]. exact Hrun.
  - destruct (Part_000_blocks_padded host garbage []) as (bs & st & Hrun & Hpad).
    apply blocks_of_empty in Hpad. destruct Hpad as [-> ->]. exact Hrun.
Qed.

Lemma C7_short_read_witness :
  length [0x61; 0x62; 0x63] = 3%nat
  /\ short_padded Program_md5.FINISH LittleEndian [0x61; 0x62; 0x63] 0
       (Program_md5.pad LittleEndian
          (mkIO (repeat 0xAA 64) [0x61; 0x62; 0x63] 0 Program_md5.READ))
  /\ short_padded Part_000.FINISH LittleEndian [0x61; 0x62; 0x63] 0
       (Part_000.nextblock LittleEndian
          (mkIO (repeat 0xAA 64) [0x61; 0x62; 0x63] 0 Part_000.READ))
  /\ Program_md5.blocks LittleEndian (fun _ => 0xAA) []
     = Some ([empty_block], mkIO empty_block [] 0 Program_md5.FINISH)
  /\ Part_000.blocks LittleEndian (fun _ => 0xAA) []
     = Some ([empty_block], mkIO empty_block [] 0 Part_000.FINISH).
Proof.
  apply (C7_short_read_is_padded_in_place LittleEndian (repeat 0xAA 64) [0x61; 0x62; 0x63] 0
           3 ([0x61; 0x62; 0x63] ++ repeat 0xAA 61) [] (fun _ => 0xAA)).
  - reflexivity.
  - reflexivity.
  - lia.
Defined.

(** C8.  The length field of the final block should decode to 8*N for an
    input of N bytes.  nextblock of [Finalizing_padding.c] never assigns to
    *nobits, which main sets to 0: for every input the loop ends and the
    length field of its last block decodes to 0, in either byte order. *)
Theorem C8_sha_length_field_is_always_zero (host : endianness) (garbage : nat -> Z)
    (data : list Z) :
  exists bs st,
    Finalizing_padding.blocks host garbage data = Some (bs, st)
    /\ nobits st = 0
    /\ length_field (last bs []) = repeat 0 8
    /\ decode host (length_field (last bs [])) = 0.
Proof.
  destruct (Finalizing_padding_blocks_padded host garbage data)
    as (bs & st & Hrun & _ & _ & _ & Hfield & Hst).
  rewrite bump_rate0 in * by lia.
  exists bs, st. split; [exact Hrun|]. split; [now rewrite Hst|].
  rewrite Hfield. split; [destruct host; reflexivity|].
  now rewrite decode_encode64.
Qed.

(** C9.  From the READ state to FINISH the padder inserts exactly one 0x80
    marker: for every input the loop of main ends, and the blocks it has
    obtained are the message, one byte 0x80, zero bytes, and the eight
    bytes of the length field, a positive whole number of 64-byte blocks
    (so a message of a multiple of 64 bytes gets a block of padding of
    its own).  Holds for nextblock of [Finalizing_padding.c], whose PAD1
    state is never entered, and for nextblock of the loop-based file. *)
Theorem C9_exactly_one_marker (host : endianness) (garbage : nat -> Z) (data : list Z) :
  (exists bs st,
     Finalizing_padding.blocks host garbage data = Some (bs, st)
     /\ status st = Finalizing_padding.FINISH
     /\ length bs = block_count (length data)
     /\ one_marker data (concat bs))
  /\ (exists bs st,
        Part_000.blocks host garbage data = Some (bs, st)
        /\ status st = Part_000.FINISH
        /\ length bs = block_count (length data)
        /\ one_marker data (concat bs)).
Proof.
  split.
  - destruct (Finalizing_padding_blocks_padded host garbage data)
      as (bs & st & Hrun & Hpad).
    exists bs, st. split; [exact Hrun|].
    pose proof (padded_one_marker _ _ _ _ _ _ _ Hpad) as Hone.
    destruct Hpad as (_ & _ & Hlen & _ & ->). auto.
  - destruct (Part_000_blocks_padded host garbage data) as (bs & st & Hrun & Hpad).
    exists bs, st. split; [exact Hrun|].
    pose proof (padded_one_marker _ _ _ _ _ _ _ Hpad) as Hone.
    destruct Hpad as (_ & _ & Hlen & _ & ->). auto.
Qed.

(** C10.  Every K[t] and W[t] that nexthash reads should be inside the
    64-element arrays, and every W[t] read should have been written.  The
    loop of rounds reads W[16], which no statement has assigned; and were
    W full of values left by earlier calls, its round t = 64 would read
    K[64], past the end of K. *)
Theorem C10_nexthash_reads_outside_its_arrays (host : endianness) (blk Hs : list Z)
    (w : nat -> Z) :
  Finalizing_padding.nexthash host blk Hs = inl (UninitRead "W" 16)
  /\ Finalizing_padding.nexthash_from (stale w) host blk Hs = inl (OutOfBounds "K" 64).
Proof.
  unfold Finalizing_padding.nexthash, Finalizing_padding.nexthash_from.
  rewrite !schedule_from_eq. cbn [bind ret].
  rewrite first_loop_fresh, first_loop_stale, rounds_fresh, rounds_stale.
  split; reflexivity.
Qed.

(** * Further properties of the padders *)

Lemma app_inj_length {A : Type} (p1 q1 p2 q2 : list A) :
  length p1 = length p2 -> p1 ++ q1 = p2 ++ q2 -> p1 = p2 /\ q1 = q2.
Proof.
  revert p2. induction p1 as [|x p1 IH]; intros [|y p2] Hlen Heq; try discriminate.
  - auto.
  - cbn [app] in Heq. injection Heq as -> Heq. injection Hlen as Hlen.
    destruct (IH p2 Hlen Heq) as [-> ->]. auto.
Qed.

(* lists of 64-byte blocks are determined by their concatenation *)
Lemma concat_blocks_inj (bs1 bs2 : list (list Z)) :
  Forall (fun b => length b = 64%nat) bs1 -> Forall (fun b => length b = 64%nat) bs2 ->
  concat bs1 = concat bs2 -> bs1 = bs2.
Proof.
  intros H1. revert bs2. induction H1 as [|b1 bs1 Hb1 _ IH]; intros bs2 H2 Heq.
  - destruct H2 as [|b2 bs2 Hb2 _]; [reflexivity|].
    cbn [concat] in Heq. apply (f_equal (@length Z)) in Heq.
    rewrite length_app, Hb2 in Heq. discriminate.
  - destruct H2 as [|b2 bs2 Hb2 H2].
    + cbn [concat] in Heq. apply (f_equal (@length Z)) in Heq.
      rewrite length_app, Hb1 in Heq. discriminate.
    + cbn [concat] in Heq.
      destruct (app_inj_length b1 (concat bs1) b2 (concat bs2)) as [-> Hrest];
        [congruence | exact Heq |].
      now rewrite (IH bs2 H2 Hrest).
Qed.

(* the outcome of a padding loop is fixed by the message and the counter *)
Lemma padded_unique {flag : Type} (FINISH : flag) (host : endianness) (rate : Z)
    (file : list Z) (bits : Z) (bs1 bs2 : list (list Z)) (st1 st2 : io flag) :
  padded FINISH host rate file bits bs1 st1 ->
  padded FINISH host rate file bits bs2 st2 ->
  bs1 = bs2 /\ st1 = st2.
Proof.
  intros (Hc1 & Hf1 & _ & _ & ->) (Hc2 & Hf2 & _ & _ & ->).
  assert (Hbs : bs1 = bs2) by (apply concat_blocks_inj; congruence).
  subst bs2. auto.
Qed.

(** X1.  The padding loop of [Program/md5.c] ends for every input, having
    produced the message, one byte 0x80, zero bytes and the eight bytes of
    the length field, in N/64 + 1 or N/64 + 2 blocks of 64 bytes. *)
Theorem X1_md5_c_padding_is_total_and_well_formed (host : endianness) (garbage : nat -> Z)
    (data : list Z) :
  exists bs st,
    Program_md5.blocks host garbage data = Some (bs, st)
    /\ status st = Program_md5.FINISH
    /\ infile st = []
    /\ length bs = block_count (length data)
    /\ Forall (fun b => length b = 64%nat) bs
    /\ one_marker data (concat bs).
Proof.
  destruct (Program_md5_blocks_padded host garbage data) as (bs & st & Hrun & Hpad).
  exists bs, st. split; [exact Hrun|].
  pose proof (padded_one_marker _ _ _ _ _ _ _ Hpad) as Hone.
  destruct Hpad as (_ & Hall & Hlen & _ & ->). auto.
Qed.

Lemma bump_bits (n : nat) :
  8 * Z.of_nat n < 2 ^ 64 -> bump 8 0 n = 8 * Z.of_nat n.
Proof.
  intros Hn. unfold bump, wrap64. rewrite Z.add_0_l. apply Z.mod_small. lia.
Qed.

(** X2.  In both MD5 files the bit counter ends at 8*N and the length field
    of the last block, read back in the byte order it was written in, is
    8*N, for every input of N bytes with 8*N below 2^64. *)
Theorem X2_md5_length_field_is_bit_count (host : endianness) (garbage : nat -> Z)
    (data : list Z) :
  8 * Z.of_nat (length data) < 2 ^ 64 ->
  (exists bs st,
     Part_000.blocks host garbage data = Some (bs, st)
     /\ nobits st = 8 * Z.of_nat (length data)
     /\ decode host (length_field (last bs [])) = 8 * Z.of_nat (length data))
  /\ (exists bs st,
        Program_md5.blocks host garbage data = Some (bs, st)
        /\ nobits st = 8 * Z.of_nat (length data)
        /\ decode host (length_field (last bs [])) = 8 * Z.of_nat (length data)).
Proof.
  intros Hn. split.
  - destruct (Part_000_blocks_padded host garbage data)
      as (bs & st & Hrun & _ & _ & _ & Hfield & ->).
    eexists bs, _. split; [exact Hrun|]. cbn [nobits].
    rewrite Hfield, decode_encode64, bump_bits by assumption.
    split; [reflexivity|]. apply Z.mod_small. lia.
  - destruct (Program_md5_blocks_padded host garbage data)
      as (bs & st & Hrun & _ & _ & _ & Hfield & ->).
    eexists bs, _. split; [exact Hrun|]. cbn [nobits].
    rewrite Hfield, decode_encode64, bump_bits by assumption.
    split; [reflexivity|]. apply Z.mod_small. lia.
Qed.

Lemma X2_md5_length_field_witness :
  (exists bs st,
     Part_000.blocks BigEndian (fun _ => 0xAA) (repeat 0x61 60) = Some (bs, st)
     /\ nobits st = 8 * Z.of_nat (length (repeat 0x61 60))
     /\ decode BigEndian (length_field (last bs []))
        = 8 * Z.of_nat (length (repeat 0x61 60)))
  /\ (exists bs st,
        Program_md5.blocks BigEndian (fun _ => 0xAA) (repeat 0x61 60) = Some (bs, st)
        /\ nobits st = 8 * Z.of_nat (length (repeat 0x61 60))
        /\ decode BigEndian (length_field (last bs []))
           = 8 * Z.of_nat (length (repeat 0x61 60))).
Proof.
  apply (X2_md5_length_field_is_bit_count BigEndian (fun _ => 0xAA) (repeat 0x61 60)).
  vm_compute. reflexivity.
Defined.

(** X3.  Whatever the stack held in the block buffer, the three padders
    hand the same blocks to the hash and end in the same state: no byte
    of the uninitialised buffer survives in an emitted block. *)
Theorem X3_padders_overwrite_the_whole_buffer (host : endianness) (g1 g2 : nat -> Z)
    (data : list Z) :
  Part_000.blocks host g1 data = Part_000.blocks host g2 data
  /\ Program_md5.blocks host g1 data = Program_md5.blocks host g2 data
  /\ Finalizing_padding.blocks host g1 data = Finalizing_padding.blocks host g2 data.
Proof.
  split; [|split].
  - destruct (Part_000_blocks_padded host g1 data) as (bs1 & st1 & -> & Hp1).
    destruct (Part_000_blocks_padded host g2 data) as (bs2 & st2 & -> & Hp2).
    destruct (padded_unique _ _ _ _ _ _ _ _ _ Hp1 Hp2) as [-> ->]. reflexivity.
  - destruct (Program_md5_blocks_padded host g1 data) as (bs1 & st1 & -> & Hp1).
    destruct (Program_md5_blocks_padded host g2 data) as (bs2 & st2 & -> & Hp2).
    destruct (padded_unique _ _ _ _ _ _ _ _ _ Hp1 Hp2) as [-> ->]. reflexivity.
  - destruct (Finalizing_padding_blocks_padded host g1 data) as (bs1 & st1 & -> & Hp1).
    destruct (Finalizing_padding_blocks_padded host g2 data) as (bs2 & st2 & -> & Hp2).
    destruct (padded_unique _ _ _ _ _ _ _ _ _ Hp1 Hp2) as [-> ->]. reflexivity.
Qed.

(** X4.  pad of [Program/md5.c] and nextblock of the loop-based file emit
    the same blocks for every input, although one reads only in its READ
    state and clears 56 bytes of the last block and the other reads on
    every call and clears 57. *)
Theorem X4_md5_padders_agree (host : endianness) (g1 g2 : nat -> Z) (data : list Z) :
  option_map fst (Program_md5.blocks host g1 data)
  = option_map fst (Part_000.blocks host g2 data).
Proof.
  destruct (Program_md5_blocks_padded host g1 data) as (bs1 & st1 & -> & Hp1).
  destruct (Part_000_blocks_padded host g2 data) as (bs2 & st2 & -> & Hp2).
  destruct Hp1 as (Hc1 & Hf1 & _). destruct Hp2 as (Hc2 & Hf2 & _).
  cbn [option_map fst]. f_equal. apply concat_blocks_inj; congruence.
Qed.

Lemma zeros_marker_inj (k1 : nat) : forall (k2 : nat) (r1 r2 : list Z),
  repeat 0 k1 ++ 0x80 :: r1 = repeat 0 k2 ++ 0x80 :: r2 -> r1 = r2.
Proof.
  induction k1 as [|k1 IH]; intros [|k2] r1 r2 Heq; cbn [repeat app] in Heq;
    try discriminate.
  - now injection Heq.
  - injection Heq as Heq. eauto.
Qed.

Lemma rev_zeros (k : nat) : rev (repeat 0 k) = repeat 0 k.
Proof.
  induction k as [|k IH]; [reflexivity|].
  cbn [repeat rev]. rewrite IH.
  change (repeat 0 k ++ [0]) with (repeat 0 k ++ repeat 0 1).
  rewrite <- repeat_app. now replace (k + 1)%nat with (S k) by lia.
Qed.

(* a message is what precedes the last marker *)
Lemma marker_zeros_inj (d1 d2 : list Z) (k1 k2 : nat) :
  d1 ++ 0x80 :: repeat 0 k1 = d2 ++ 0x80 :: repeat 0 k2 -> d1 = d2.
Proof.
  intros Heq. apply (f_equal (@rev Z)) in Heq.
  rewrite !rev_app_distr in Heq. cbn [rev] in Heq.
  rewrite !rev_zeros, <- !app_assoc in Heq. cbn [app] in Heq.
  apply zeros_marker_inj in Heq.
  apply (f_equal (@rev Z)) in Heq. now rewrite !rev_involutive in Heq.
Qed.

Lemma encode_zero (host : endianness) : encode host 8 0 = repeat 0 8.
Proof. destruct host; reflexivity. Qed.

(** X5.  Padding in the MD5 files is injective: two messages, each with a
    bit count below 2^64, for which the padder emits the same blocks are
    equal.  Holds for nextblock of the loop-based file and for pad of
    [Program/md5.c]. *)
Theorem X5_md5_padding_is_injective (host : endianness) (g1 g2 : nat -> Z)
    (d1 d2 : list Z) :
  8 * Z.of_nat (length d1) < 2 ^ 64 -> 8 * Z.of_nat (length d2) < 2 ^ 64 ->
  (option_map fst (Part_000.blocks host g1 d1) = option_map fst (Part_000.blocks host g2 d2)
   -> d1 = d2)
  /\ (option_map fst (Program_md5.blocks host g1 d1)
      = option_map fst (Program_md5.blocks host g2 d2) -> d1 = d2).
Proof.
  intros Hn1 Hn2.
  assert (Hmd5 : forall bs,
            concat bs = d1 ++ [0x80] ++ repeat 0 (pad_zeros (length d1))
                          ++ encode host 8 (bump 8 0 (length d1)) ->
            length_field (last bs []) = encode host 8 (bump 8 0 (length d1)) ->
            concat bs = d2 ++ [0x80] ++ repeat 0 (pad_zeros (length d2))
                          ++ encode host 8 (bump 8 0 (length d2)) ->
            length_field (last bs []) = encode host 8 (bump 8 0 (length d2)) ->
            d1 = d2).
  { intros bs Hc1 Hf1 Hc2 Hf2.
    rewrite Hf1 in Hf2. apply (f_equal (decode host)) in Hf2.
    rewrite !decode_encode64, !bump_bits in Hf2 by assumption.
    unfold wrap64 in Hf2. rewrite !Z.mod_small in Hf2 by lia.
    rewrite Hc1 in Hc2.
    apply app_inj_length in Hc2; [tauto | lia]. }
  split.
  - destruct (Part_000_blocks_padded host g1 d1) as (bs1 & st1 & -> & Hc1 & _ & _ & Hf1 & _).
    destruct (Part_000_blocks_padded host g2 d2) as (bs2 & st2 & -> & Hc2 & _ & _ & Hf2 & _).
    cbn [option_map fst]. intros Heq. injection Heq as ->. eauto.
  - destruct (Program_md5_blocks_padded host g1 d1)
      as (bs1 & st1 & -> & Hc1 & _ & _ & Hf1 & _).
    destruct (Program_md5_blocks_padded host g2 d2)
      as (bs2 & st2 & -> & Hc2 & _ & _ & Hf2 & _).
    cbn [option_map fst]. intros Heq. injection Heq as ->. eauto.
Qed.

Lemma X5_md5_padding_injective_witness :
  (option_map fst (Part_000.blocks LittleEndian (fun _ => 0) [0x61])
   = option_map fst (Part_000.blocks LittleEndian (fun _ => 1) [0x61])
   -> [0x61] = [0x61])
  /\ (option_map fst (Program_md5.blocks LittleEndian (fun _ => 0) [0x61])
      = option_map fst (Program_md5.blocks LittleEndian (fun _ => 1) [0x61])
      -> [0x61] = [0x61]).
Proof.
  apply (X5_md5_padding_is_injective LittleEndian (fun _ => 0) (fun _ => 1) [0x61] [0x61]);
    vm_compute; reflexivity.
Defined.

(** X17.  Padding in [Finalizing_padding.c] is injective for all messages,
    although its length field is always zero: the message is what stands
    before the last byte 0x80 of the padded stream. *)
Theorem X17_sha_padding_is_injective (host : endianness) (g1 g2 : nat -> Z)
    (d1 d2 : list Z) :
  option_map fst (Finalizing_padding.blocks host g1 d1)
  = option_map fst (Finalizing_padding.blocks host g2 d2) ->
  d1 = d2.
Proof.
  destruct (Finalizing_padding_blocks_padded host g1 d1) as (bs1 & st1 & -> & Hc1 & _).
  destruct (Finalizing_padding_blocks_padded host g2 d2) as (bs2 & st2 & -> & Hc2 & _).
  cbn [option_map fst]. intros Heq. injection Heq as ->.
  rewrite Hc1 in Hc2. rewrite !bump_rate0, encode_zero in Hc2 by lia.
  cbn [app] in Hc2. rewrite <- !repeat_app in Hc2.
  now apply marker_zeros_inj in Hc2.
Qed.

Lemma X17_sha_padding_injective_witness : [0x61; 0x80] = [0x61; 0x80].
Proof.
  apply (X17_sha_padding_is_injective BigEndian (fun _ => 0) (fun _ => 1)
           [0x61; 0x80] [0x61; 0x80]).
  vm_compute. reflexivity.
Defined.

(** * Further properties of the drivers and compression functions *)

Lemma fold_MD5_Prepare (bs : list (list Z)) (output : list Z) :
  fold_left (fun out blk => Program_md5.MD5_Prepare blk out) bs output = output.
Proof. induction bs as [|b bs IH]; [reflexivity | exact IH]. Qed.

(** X6.  main of [Program/md5.c] prints 00000000 and a newline for every
    input file: its loop only pads, and output[] is never written. *)
Theorem X6_md5_c_prints_zeros_for_every_input (host : endianness) (garbage : nat -> Z)
    (data : list Z) :
  Program_md5.main host garbage data = Some ("00000000" ++ newline)%string.
Proof.
  destruct (Program_md5_blocks_padded host garbage data) as (bs & st & Hrun & _).
  unfold Program_md5.main, Program_md5.blocks in *.
  rewrite (while_blocks_fold _ Program_md5.MD5_Prepare _ _ [0; 0; 0; 0] bs st Hrun).
  rewrite fold_MD5_Prepare. reflexivity.
Qed.

Lemma nexthash_fresh_fault (host : endianness) (blk Hs : list Z) :
  Finalizing_padding.nexthash host blk Hs = inl (UninitRead "W" 16).
Proof.
  unfold Finalizing_padding.nexthash, Finalizing_padding.nexthash_from.
  rewrite schedule_from_eq. cbn [bind ret].
  now rewrite first_loop_fresh, rounds_fresh.
Qed.

Lemma fault_sticks_blocks {A B : Type} (g : B -> A -> checked A) (flt : fault) (l : list B) :
  fold_left (fun acc b => x <- acc ;; g b x) l (inl flt) = inl flt.
Proof. induction l as [|b l IH]; [reflexivity | exact IH]. Qed.

(** X7.  main of [Finalizing_padding.c] reaches the read of the unwritten
    W[16] for every input file: every file yields at least one padded
    block, and the first call of nexthash faults. *)
Theorem X7_sha_main_faults_for_every_input (host : endianness) (garbage : nat -> Z)
    (data : list Z) :
  Finalizing_padding.main host garbage data = Some (inl (UninitRead "W" 16)).
Proof.
  destruct (Finalizing_padding_blocks_padded host garbage data)
    as (bs & st & Hrun & _ & _ & Hlen & _).
  unfold Finalizing_padding.main, Finalizing_padding.blocks in *.
  rewrite (while_blocks_fold _ (fun blk acc => Hs <- acc ;; Finalizing_padding.nexthash host blk Hs)
             _ _ (ret Finalizing_padding.H_init) bs st Hrun).
  destruct bs as [|b bs].
  - unfold block_count in Hlen. cbn [length] in Hlen.
    destruct (_ <? _)%nat in Hlen; lia.
  - cbn [fold_left bind ret]. rewrite nexthash_fresh_fault.
    now rewrite (fault_sticks_blocks (fun blk Hs => Finalizing_padding.nexthash host blk Hs)).
Qed.

(** X8.  nexthash cannot return normally, whatever the array W held on
    entry: its round for t = 64 reads K[64], unless an earlier round has
    already read an element outside W or never written. *)
Theorem X8_nexthash_always_faults (W0 : list (option Z)) (host : endianness)
    (blk Hs : list Z) :
  exists flt, Finalizing_padding.nexthash_from W0 host blk Hs = inl flt.
Proof.
  unfold Finalizing_padding.nexthash_from.
  rewrite schedule_from_eq. cbn [bind ret].
  unfold Finalizing_padding.rounds. rewrite for_rangeM_S by lia.
  destruct (for_rangeM 0 64 _ _) as [flt | v].
  - exists flt. reflexivity.
  - exists (OutOfBounds "K" 64). reflexivity.
Qed.

Lemma add32_in32 (x y : Z) : in32 (add32 x y).
Proof. unfold in32, add32, wrap32. apply Z.mod_pos_bound. lia. Qed.

(* md5 of the loop-based file keeps H an array of four 32-bit words *)
Lemma Part_000_md5_words (host : endianness) (blk Hs : list Z) :
  length Hs = 4%nat ->
  length (Part_000.md5 host blk Hs) = 4%nat /\ Forall in32 (Part_000.md5 host blk Hs).
Proof.
  intros Hlen.
  destruct Hs as [|h0 [|h1 [|h2 [|h3 [|? ?]]]]]; try discriminate.
  rewrite Part_000_md5_eq. cbv zeta. split; [reflexivity|].
  repeat constructor; apply add32_in32.
Qed.

Lemma fold_left_cons {A B : Type} (f : A -> B -> A) (b : B) (l : list B) (a : A) :
  fold_left f (b :: l) a = fold_left f l (f a b).
Proof. reflexivity. Qed.

Lemma fold_md5_words (host : endianness) (bs : list (list Z)) : forall Hs,
  length Hs = 4%nat -> Forall in32 Hs ->
  length (fold_left (fun acc blk => Part_000.md5 host blk acc) bs Hs) = 4%nat
  /\ Forall in32 (fold_left (fun acc blk => Part_000.md5 host blk acc) bs Hs).
Proof.
  induction bs as [|b bs IH]; intros Hs Hlen Hr; [auto|].
  rewrite fold_left_cons. destruct (Part_000_md5_words host b Hs Hlen) as [Hl' Hr'].
  exact (IH (Part_000.md5 host b Hs) Hl' Hr').
Qed.

(** X9.  For every block and state, md5 of the loop-based file returns
    what the 64 lines of [Program/md5.c] leave in a, b, c, d when each line
    takes the shift entry of its own round, plus the state it was given;
    and the first 48 iterations of its loop are the first 48 lines of
    md5.c as they stand. *)
Theorem X9_loop_md5_is_the_unrolled_md5 (host : endianness) (blk : list Z)
    (h0 h1 h2 h3 : Z) :
  (let v := fold_left (fun w cl => Program_md5.exec host blk cl w)
              (map own_shift Program_md5.body) (Program_md5.mkRegs h0 h1 h2 h3) in
   Part_000.md5 host blk [h0; h1; h2; h3]
   = [add32 (Program_md5.reg_a v) h0; add32 (Program_md5.reg_b v) h1;
      add32 (Program_md5.reg_c v) h2; add32 (Program_md5.reg_d v) h3])
  /\ for_range 0 48 (Part_000.round host blk) [h0; h1; h2; h3]
     = regs_list (fold_left (fun w cl => Program_md5.exec host blk cl w)
                    (firstn 48 Program_md5.body) (Program_md5.mkRegs h0 h1 h2 h3)).
Proof.
  split; [apply Part_000_md5_eq|].
  unfold for_range.
  replace (48 - 0)%nat with (length (firstn 48 Program_md5.body)) by reflexivity.
  replace [h0; h1; h2; h3] with (regs_list (Program_md5.mkRegs h0 h1 h2 h3)) at 1
    by reflexivity.
  apply fold_lines. intros i w Hi.
  replace (length (firstn 48 Program_md5.body)) with 48%nat in Hi by reflexivity.
  rewrite Nat.add_0_l, round_is_line by lia. do 2 f_equal.
  replace (firstn 48 Program_md5.body) with (map own_shift (firstn 48 Program_md5.body))
    by reflexivity.
  replace line0 with (own_shift line0) at 2 by reflexivity.
  rewrite map_nth, nth_firstn.
  now replace (i <? 48)%nat with true by ltb_true.
Qed.

(** X10.  The loop of main of the loop-based file ends for every input;
    the H it leaves is md5 folded over the padded blocks from the four
    initial words, an array of four 32-bit words. *)
Theorem X10_main_loop_folds_md5_over_the_blocks (host : endianness) (garbage : nat -> Z)
    (data : list Z) :
  exists bs st Hs,
    Part_000.blocks host garbage data = Some (bs, st)
    /\ Part_000.main_loop host garbage data = Some (Hs, st)
    /\ Hs = fold_left (fun acc blk => Part_000.md5 host blk acc) bs
              [Part_000.A; Part_000.B; Part_000.C; Part_000.D]
    /\ length bs = block_count (length data)
    /\ length Hs = 4%nat
    /\ Forall in32 Hs.
Proof.
  destruct (Part_000_blocks_padded host garbage data) as (bs & st & Hrun & _ & _ & Hlen & _).
  exists bs, st, (fold_left (fun acc blk => Part_000.md5 host blk acc) bs
                    [Part_000.A; Part_000.B; Part_000.C; Part_000.D]).
  split; [exact Hrun|]. split.
  - unfold Part_000.main_loop, Part_000.blocks in *.
    apply (while_blocks_fold _ (Part_000.md5 host) _ _ _ bs st Hrun).
  - split; [reflexivity|]. split; [exact Hlen|].
    apply fold_md5_words; [reflexivity|].
    repeat constructor; unfold in32; vm_compute; intuition discriminate.
Qed.

(** X11.  nextblock of [Finalizing_padding.c] never changes the bit
    counter and never sets the status PAD1: from any other status the
    branch that writes a marker at byte 0 is not reached. *)
Theorem X11_sha_padder_keeps_nobits_and_never_enters_PAD1 (host : endianness)
    (st : io Finalizing_padding.PADFLAG) :
  status st <> Finalizing_padding.PAD1 ->
  nobits (snd (Finalizing_padding.nextblock host st)) = nobits st
  /\ status (snd (Finalizing_padding.nextblock host st)) <> Finalizing_padding.PAD1.
Proof.
  intros Hst. destruct st as [blk file bits flag].
  cbn [status] in Hst. unfold Finalizing_padding.nextblock. cbn [M infile nobits status].
  destruct flag; try contradiction; cbn [snd nobits status]; try (split; congruence).
  destruct (fread blk 64 file) as [[n b] f].
  destruct (n =? 64)%nat; [cbn [snd nobits status]; split; congruence|].
  destruct (n <? 56)%nat; cbn [snd nobits status]; split; congruence.
Qed.

Lemma X11_sha_padder_witness :
  nobits (snd (Finalizing_padding.nextblock LittleEndian
                 (mkIO (repeat 0 64) (repeat 0x61 60) 0 Finalizing_padding.READ))) = 0
  /\ status (snd (Finalizing_padding.nextblock LittleEndian
                    (mkIO (repeat 0 64) (repeat 0x61 60) 0 Finalizing_padding.READ)))
     <> Finalizing_padding.PAD1.
Proof.
  apply (X11_sha_padder_keeps_nobits_and_never_enters_PAD1 LittleEndian
           (mkIO (repeat 0 64) (repeat 0x61 60) 0 Finalizing_padding.READ)).
  cbn [status]. discriminate.
Defined.

(** * Bit-level properties of the word operations *)

Lemma testbit_not32 (x i : Z) :
  0 <= i < 32 -> Z.testbit (not32 x) i = negb (Z.testbit x i).
Proof.
  intros Hi. unfold not32, wrap32.
  rewrite Z.mod_pow2_bits_low by lia. apply Z.lnot_spec. lia.
Qed.

Lemma testbit_above (x i : Z) : in32 x -> 32 <= i -> Z.testbit x i = false.
Proof.
  intros Hx Hi. rewrite <- (Z.mod_small x (2 ^ 32)) by exact Hx.
  apply Z.mod_pow2_bits_high. lia.
Qed.

Lemma in32_of_bits (v : Z) :
  0 <= v -> (forall i, 32 <= i -> Z.testbit v i = false) -> in32 v.
Proof.
  intros Hv Hhigh.
  assert (Heq : v mod 2 ^ 32 = v).
  { apply Z.bits_inj'. intros i Hi.
    destruct (Z.lt_ge_cases i 32) as [Hlo | Hge].
    - now apply Z.mod_pow2_bits_low.
    - rewrite Z.mod_pow2_bits_high by lia. symmetry. now apply Hhigh. }
  unfold in32. rewrite <- Heq. apply Z.mod_pos_bound. lia.
Qed.

Lemma not32_in32 (x : Z) : in32 (not32 x).
Proof. unfold in32, not32, wrap32. apply Z.mod_pos_bound. lia. Qed.

Lemma shl32_in32 (x n : Z) : in32 (shl32 x n).
Proof. unfold in32, shl32, wrap32. apply Z.mod_pos_bound. lia. Qed.

Lemma shr32_in32 (x n : Z) : in32 x -> 0 <= n -> in32 (shr32 x n).
Proof.
  intros Hx Hn. unfold shr32. apply in32_of_bits.
  - apply Z.shiftr_nonneg. apply Hx.
  - intros i Hi. rewrite Z.shiftr_spec by lia. apply testbit_above; [exact Hx | lia].
Qed.

Lemma lor_in32 (x y : Z) : in32 x -> in32 y -> in32 (Z.lor x y).
Proof.
  intros Hx Hy. apply in32_of_bits.
  - apply Z.lor_nonneg. split; [apply Hx | apply Hy].
  - intros i Hi. rewrite Z.lor_spec, !testbit_above by assumption. reflexivity.
Qed.

Lemma lxor_in32 (x y : Z) : in32 x -> in32 y -> in32 (Z.lxor x y).
Proof.
  intros Hx Hy. apply in32_of_bits.
  - apply Z.lxor_nonneg. split; intros _; [apply Hy | apply Hx].
  - intros i Hi. rewrite Z.lxor_spec, !testbit_above by assumption. reflexivity.
Qed.

Lemma land_in32_r (x y : Z) : in32 y -> in32 (Z.land x y).
Proof.
  intros Hy. apply in32_of_bits.
  - apply Z.land_nonneg. right. apply Hy.
  - intros i Hi. rewrite Z.land_spec, (testbit_above y) by assumption.
    apply andb_false_r.
Qed.

Lemma land_in32_l (x y : Z) : in32 x -> in32 (Z.land x y).
Proof. intros Hx. rewrite Z.land_comm. now apply land_in32_r. Qed.

(** X12.  Ch and Maj of [Finalizing_padding.c] are what their comments
    say, bit by bit: Ch takes each bit from y where x has a 1 and from z
    where x has a 0, Maj is the majority of the three bits; both give a
    32-bit word on 32-bit words. *)
Theorem X12_Ch_chooses_and_Maj_is_majority (x y z i : Z) :
  in32 x -> in32 y -> in32 z -> 0 <= i < 32 ->
  Z.testbit (Finalizing_padding.Ch x y z) i
  = choose (Z.testbit x i) (Z.testbit y i) (Z.testbit z i)
  /\ Z.testbit (Finalizing_padding.Maj x y z) i
     = majority (Z.testbit x i) (Z.testbit y i) (Z.testbit z i)
  /\ in32 (Finalizing_padding.Ch x y z)
  /\ in32 (Finalizing_padding.Maj x y z).
Proof.
  intros Hx Hy Hz Hi. unfold Finalizing_padding.Ch, Finalizing_padding.Maj, choose, majority.
  split; [|split; [|split]].
  - rewrite Z.lxor_spec, !Z.land_spec, testbit_not32 by exact Hi.
    destruct (Z.testbit x i), (Z.testbit y i), (Z.testbit z i); reflexivity.
  - rewrite !Z.lxor_spec, !Z.land_spec.
    destruct (Z.testbit x i), (Z.testbit y i), (Z.testbit z i); reflexivity.
  - apply lxor_in32; [now apply land_in32_l | now apply land_in32_r].
  - repeat apply lxor_in32; now apply land_in32_l.
Qed.

Lemma X12_Ch_Maj_witness :
  Z.testbit (Finalizing_padding.Ch 0xF0F0F0F0 0xAAAAAAAA 0x55555555) 5
  = choose (Z.testbit 0xF0F0F0F0 5) (Z.testbit 0xAAAAAAAA 5) (Z.testbit 0x55555555 5)
  /\ Z.testbit (Finalizing_padding.Maj 0xF0F0F0F0 0xAAAAAAAA 0x55555555) 5
     = majority (Z.testbit 0xF0F0F0F0 5) (Z.testbit 0xAAAAAAAA 5) (Z.testbit 0x55555555 5)
  /\ in32 (Finalizing_padding.Ch 0xF0F0F0F0 0xAAAAAAAA 0x55555555)
  /\ in32 (Finalizing_padding.Maj 0xF0F0F0F0 0xAAAAAAAA 0x55555555).
Proof.
  apply (X12_Ch_chooses_and_Maj_is_majority 0xF0F0F0F0 0xAAAAAAAA 0x55555555 5);
    unfold in32; lia.
Defined.

(** X13.  The auxiliary functions of the MD5 files, bit by bit: F takes
    each bit from y where x has a 1 and from z elsewhere, G takes it from x
    where z has a 1 and from y elsewhere (so G(x,y,z) = F(z,x,y)), H is the
    parity of the three bits and I is y xor (x or not z); all give 32-bit
    words on 32-bit words. *)
Theorem X13_md5_auxiliary_functions (x y z i : Z) :
  in32 x -> in32 y -> in32 z -> 0 <= i < 32 ->
  Z.testbit (Part_000.F x y z) i = choose (Z.testbit x i) (Z.testbit y i) (Z.testbit z i)
  /\ Z.testbit (Part_000.G x y z) i = choose (Z.testbit z i) (Z.testbit x i) (Z.testbit y i)
  /\ Z.testbit (Part_000.H x y z) i
     = xorb (xorb (Z.testbit x i) (Z.testbit y i)) (Z.testbit z i)
  /\ Z.testbit (Part_000.I x y z) i
     = xorb (Z.testbit y i) (Z.testbit x i || negb (Z.testbit z i))
  /\ Part_000.G x y z = Part_000.F z x y
  /\ in32 (Part_000.F x y z) /\ in32 (Part_000.G x y z)
  /\ in32 (Part_000.H x y z) /\ in32 (Part_000.I x y z).
Proof.
  intros Hx Hy Hz Hi.
  unfold Part_000.F, Part_000.G, Part_000.H, Part_000.I, choose.
  split; [|split; [|split; [|split; [|split; [|split; [|split; [|split]]]]]]].
  - rewrite Z.lor_spec, !Z.land_spec, testbit_not32 by exact Hi.
    destruct (Z.testbit x i), (Z.testbit y i), (Z.testbit z i); reflexivity.
  - rewrite Z.lor_spec, !Z.land_spec, testbit_not32 by exact Hi.
    destruct (Z.testbit x i), (Z.testbit y i), (Z.testbit z i); reflexivity.
  - now rewrite !Z.lxor_spec.
  - now rewrite Z.lxor_spec, Z.lor_spec, testbit_not32 by exact Hi.
  - rewrite (Z.land_comm x z), (Z.land_comm y (not32 z)). reflexivity.
  - apply lor_in32; [now apply land_in32_l | now apply land_in32_r].
  - apply lor_in32; now apply land_in32_l.
  - apply lxor_in32; [now apply lxor_in32 | assumption].
  - apply lxor_in32; [assumption|]. apply lor_in32; [assumption | apply not32_in32].
Qed.

Lemma X13_md5_auxiliary_witness :
  Z.testbit (Part_000.F 0xF0F0F0F0 0xAAAAAAAA 0x55555555) 5
  = choose (Z.testbit 0xF0F0F0F0 5) (Z.testbit 0xAAAAAAAA 5) (Z.testbit 0x55555555 5)
  /\ Z.testbit (Part_000.G 0xF0F0F0F0 0xAAAAAAAA 0x55555555) 5
     = choose (Z.testbit 0x55555555 5) (Z.testbit 0xF0F0F0F0 5) (Z.testbit 0xAAAAAAAA 5)
  /\ Z.testbit (Part_000.H 0xF0F0F0F0 0xAAAAAAAA 0x55555555) 5
     = xorb (xorb (Z.testbit 0xF0F0F0F0 5) (Z.testbit 0xAAAAAAAA 5)) (Z.testbit 0x55555555 5)
  /\ Z.testbit (Part_000.I 0xF0F0F0F0 0xAAAAAAAA 0x55555555) 5
     = xorb (Z.testbit 0xAAAAAAAA 5) (Z.testbit 0xF0F0F0F0 5 || negb (Z.testbit 0x55555555 5))
  /\ Part_000.G 0xF0F0F0F0 0xAAAAAAAA 0x55555555 = Part_000.F 0x55555555 0xF0F0F0F0 0xAAAAAAAA
  /\ in32 (Part_000.F 0xF0F0F0F0 0xAAAAAAAA 0x55555555)
  /\ in32 (Part_000.G 0xF0F0F0F0 0xAAAAAAAA 0x55555555)
  /\ in32 (Part_000.H 0xF0F0F0F0 0xAAAAAAAA 0x55555555)
  /\ in32 (Part_000.I 0xF0F0F0F0 0xAAAAAAAA 0x55555555).
Proof.
  apply (X13_md5_auxiliary_functions 0xF0F0F0F0 0xAAAAAAAA 0x55555555 5);
    unfold in32; lia.
Defined.

Lemma testbit_shr32 (x n i : Z) :
  0 <= i -> Z.testbit (shr32 x n) i = Z.testbit x (i + n).
Proof. intros Hi. unfold shr32. now apply Z.shiftr_spec. Qed.

Lemma testbit_shl32 (x n i : Z) :
  0 <= i < 32 -> Z.testbit (shl32 x n) i = Z.testbit x (i - n).
Proof.
  intros Hi. unfold shl32, wrap32.
  rewrite Z.mod_pow2_bits_low by lia. apply Z.shiftl_spec. lia.
Qed.

Lemma testbit_ROTR (x n i : Z) :
  in32 x -> 0 < n < 32 -> 0 <= i < 32 ->
  Z.testbit (Finalizing_padding.ROTR x n) i = Z.testbit x ((i + n) mod 32).
Proof.
  intros Hx Hn Hi. unfold Finalizing_padding.ROTR.
  rewrite Z.lor_spec, testbit_shr32, testbit_shl32 by lia.
  destruct (Z.lt_ge_cases (i + n) 32) as [Hlo | Hge].
  - rewrite (Z.testbit_neg_r x (i - (32 - n))) by lia.
    rewrite Z.mod_small by lia. apply orb_false_r.
  - rewrite (testbit_above x (i + n)) by assumption.
    replace ((i + n) mod 32) with (i - (32 - n))
      by (apply Z.mod_unique_pos with (q := 1); lia).
    reflexivity.
Qed.

Lemma ROTR_in32 (x n : Z) : in32 x -> 0 <= n -> in32 (Finalizing_padding.ROTR x n).
Proof.
  intros Hx Hn. unfold Finalizing_padding.ROTR.
  apply lor_in32; [now apply shr32_in32 | apply shl32_in32].
Qed.

Lemma ROTL_as_ROTR (x n : Z) : Part_000.ROTL x n = Finalizing_padding.ROTR x (32 - n).
Proof.
  unfold Part_000.ROTL, Finalizing_padding.ROTR.
  replace (32 - (32 - n)) with n by lia. apply Z.lor_comm.
Qed.

(** X14.  ROTR of [Finalizing_padding.c] and ROTL of the MD5 files are
    rotations of a 32-bit word: bit i of ROTR(x, n) is bit (i + n) mod 32
    of x, bit i of ROTL(x, n) is bit (i - n) mod 32 of x, ROTL by n is
    ROTR by 32 - n, and ROTL undoes ROTR.  Holds for 0 < n < 32, the only
    amounts the programs use. *)
Theorem X14_rotations (x n i : Z) :
  in32 x -> 0 < n < 32 -> 0 <= i < 32 ->
  Z.testbit (Finalizing_padding.ROTR x n) i = Z.testbit x ((i + n) mod 32)
  /\ Z.testbit (Part_000.ROTL x n) i = Z.testbit x ((i - n) mod 32)
  /\ Part_000.ROTL x n = Finalizing_padding.ROTR x (32 - n)
  /\ Part_000.ROTL (Finalizing_padding.ROTR x n) n = x
  /\ in32 (Finalizing_padding.ROTR x n)
  /\ in32 (Part_000.ROTL x n).
Proof.
  intros Hx Hn Hi.
  assert (Hrotl : forall y j, in32 y -> 0 <= j < 32 ->
            Z.testbit (Part_000.ROTL y n) j = Z.testbit y ((j - n) mod 32)).
  { intros y j Hy Hj. rewrite ROTL_as_ROTR, testbit_ROTR by (auto; lia).
    f_equal. replace (j + (32 - n)) with (j - n + 1 * 32) by lia.
    apply Z.mod_add. lia. }
  assert (HR : in32 (Finalizing_padding.ROTR x n)) by (apply ROTR_in32; [assumption | lia]).
  split; [now apply testbit_ROTR|]. split; [now apply Hrotl|].
  split; [apply ROTL_as_ROTR|]. split; [|split].
  - apply Z.bits_inj'. intros j Hj.
    destruct (Z.lt_ge_cases j 32) as [Hlo | Hge].
    + rewrite Hrotl; [|exact HR|lia].
      rewrite testbit_ROTR; [|assumption|assumption|apply Z.mod_pos_bound; lia].
      f_equal. rewrite Zplus_mod_idemp_l.
      replace (j - n + n) with j by lia. apply Z.mod_small. lia.
    + rewrite (testbit_above x j) by assumption.
      rewrite ROTL_as_ROTR. apply testbit_above; [|assumption].
      apply ROTR_in32; [exact HR | lia].
  - exact HR.
  - rewrite ROTL_as_ROTR. apply ROTR_in32; [assumption | lia].
Qed.

Lemma X14_rotations_witness :
  Z.testbit (Finalizing_padding.ROTR 0x12345678 7) 3 = Z.testbit 0x12345678 ((3 + 7) mod 32)
  /\ Z.testbit (Part_000.ROTL 0x12345678 7) 3 = Z.testbit 0x12345678 ((3 - 7) mod 32)
  /\ Part_000.ROTL 0x12345678 7 = Finalizing_padding.ROTR 0x12345678 (32 - 7)
  /\ Part_000.ROTL (Finalizing_padding.ROTR 0x12345678 7) 7 = 0x12345678
  /\ in32 (Finalizing_padding.ROTR 0x12345678 7)
  /\ in32 (Part_000.ROTL 0x12345678 7).
Proof.
  apply (X14_rotations 0x12345678 7 3); unfold in32; lia.
Defined.

(** * The length field as the compression function reads it *)

Lemma le_encode_app (n m : nat) : forall v,
  le_encode (n + m) v = le_encode n v ++ le_encode m (v / 256 ^ Z.of_nat n).
Proof.
  induction n as [|n IH]; intros v.
  - cbn [Nat.add le_encode app]. change (256 ^ Z.of_nat 0) with 1. now rewrite Z.div_1_r.
  - cbn [Nat.add le_encode app]. rewrite IH. do 2 f_equal.
    rewrite Nat2Z.inj_succ, Z.pow_succ_r, Z.div_div by lia. reflexivity.
Qed.

Lemma firstn_exact {A : Type} (n : nat) (a b : list A) :
  length a = n -> firstn n (a ++ b) = a.
Proof.
  intros <-. now rewrite firstn_app, Nat.sub_diag, firstn_O, app_nil_r, firstn_all.
Qed.

Lemma skipn_exact {A : Type} (n : nat) (a b : list A) :
  length a = n -> skipn n (a ++ b) = b.
Proof.
  intros <-. now rewrite skipn_app, Nat.sub_diag, skipn_all.
Qed.

Lemma words_of_encode64 (host : endianness) (v : Z) :
  0 <= v < 2 ^ 64 ->
  decode host (firstn 4 (encode host 8 v))
  = match host with LittleEndian => v mod 2 ^ 32 | BigEndian => v / 2 ^ 32 end
  /\ decode host (firstn 4 (skipn 4 (encode host 8 v)))
     = match host with LittleEndian => v / 2 ^ 32 | BigEndian => v mod 2 ^ 32 end.
Proof.
  intros Hv.
  pose proof (le_encode_app 4 4 v) as Happ. change (4 + 4)%nat with 8%nat in Happ.
  change (256 ^ Z.of_nat 4) with (2 ^ 32) in Happ.
  pose proof (le_encode_length 4 v) as Hlo.
  pose proof (le_encode_length 4 (v / 2 ^ 32)) as Hhi.
  assert (Hdlo : le_decode (le_encode 4 v) = v mod 2 ^ 32) by apply le_decode_encode.
  assert (Hdhi : le_decode (le_encode 4 (v / 2 ^ 32)) = v / 2 ^ 32).
  { rewrite le_decode_encode. change (256 ^ Z.of_nat 4) with (2 ^ 32).
    apply Z.mod_small. split; [apply Z.div_pos; lia|].
    apply Z.div_lt_upper_bound; lia. }
  destruct host; unfold encode, decode; rewrite Happ.
  - rewrite (firstn_exact 4 _ _ Hlo), (skipn_exact 4 _ _ Hlo).
    rewrite <- (app_nil_r (le_encode 4 (v / 2 ^ 32))), (firstn_exact 4 _ _ Hhi).
    auto.
  - rewrite rev_app_distr.
    assert (Hrlo : length (rev (le_encode 4 v)) = 4%nat) by now rewrite length_rev.
    assert (Hrhi : length (rev (le_encode 4 (v / 2 ^ 32))) = 4%nat)
      by now rewrite length_rev.
    rewrite (firstn_exact 4 _ _ Hrhi), (skipn_exact 4 _ _ Hrhi).
    rewrite <- (app_nil_r (rev (le_encode 4 v))), (firstn_exact 4 _ _ Hrlo).
    rewrite !rev_involutive. auto.
Qed.

(** X15.  In the last block of the loop-based MD5 file the words
    M->threetwo[14] and M->threetwo[15], as md5 reads them after the padder
    wrote M->sixfour[7], are the low and the high 32 bits of the bit count
    8*N on a little-endian host, and the high and the low 32 bits on a
    big-endian host. *)
Theorem X15_length_words_seen_by_md5 (host : endianness) (garbage : nat -> Z)
    (data : list Z) :
  8 * Z.of_nat (length data) < 2 ^ 64 ->
  exists bs st,
    Part_000.blocks host garbage data = Some (bs, st)
    /\ threetwo host (last bs []) 14
       = match host with
         | LittleEndian => (8 * Z.of_nat (length data)) mod 2 ^ 32
         | BigEndian => (8 * Z.of_nat (length data)) / 2 ^ 32
         end
    /\ threetwo host (last bs []) 15
       = match host with
         | LittleEndian => (8 * Z.of_nat (length data)) / 2 ^ 32
         | BigEndian => (8 * Z.of_nat (length data)) mod 2 ^ 32
         end.
Proof.
  intros Hn.
  destruct (Part_000_blocks_padded host garbage data)
    as (bs & st & Hrun & _ & _ & _ & Hfield & _).
  rewrite bump_bits in Hfield by assumption. unfold length_field in Hfield.
  destruct (words_of_encode64 host (8 * Z.of_nat (length data))) as [H14 H15]; [lia|].
  exists bs, st. split; [exact Hrun|]. unfold threetwo.
  change (4 * 14)%nat with 56%nat. change (4 * 15)%nat with (4 + 56)%nat.
  rewrite <- skipn_skipn, Hfield. auto.
Qed.

Lemma X15_length_words_witness :
  exists bs st,
    Part_000.blocks LittleEndian (fun _ => 0xAA) (repeat 0x61 60) = Some (bs, st)
    /\ threetwo LittleEndian (last bs []) 14
       = (8 * Z.of_nat (length (repeat 0x61 60))) mod 2 ^ 32
    /\ threetwo LittleEndian (last bs []) 15
       = (8 * Z.of_nat (length (repeat 0x61 60))) / 2 ^ 32.
Proof.
  apply (X15_length_words_seen_by_md5 LittleEndian (fun _ => 0xAA) (repeat 0x61 60)).
  vm_compute. reflexivity.
Defined.

(** X16.  The four sigma functions of [Finalizing_padding.c], bit by bit,
    on a 32-bit word x: bit i of Sig0 is the parity of the bits i+2, i+13
    and i+22 of x (positions mod 32), of Sig1 of the bits i+6, i+11 and
    i+25; bit i of sig_zero is the parity of the bits i+7 and i+18 (mod 32)
    and of bit i+3, which SHR leaves 0 when i+3 passes bit 31, and bit i of
    sig_one likewise with 17, 19 and 10.  All four give 32-bit words. *)
Theorem X16_sigma_functions (x i : Z) :
  in32 x -> 0 <= i < 32 ->
  Z.testbit (Finalizing_padding.Sig0 x) i
  = xorb (xorb (Z.testbit x ((i + 2) mod 32)) (Z.testbit x ((i + 13) mod 32)))
      (Z.testbit x ((i + 22) mod 32))
  /\ Z.testbit (Finalizing_padding.Sig1 x) i
     = xorb (xorb (Z.testbit x ((i + 6) mod 32)) (Z.testbit x ((i + 11) mod 32)))
         (Z.testbit x ((i + 25) mod 32))
  /\ Z.testbit (Finalizing_padding.sig_zero x) i
     = xorb (xorb (Z.testbit x ((i + 7) mod 32)) (Z.testbit x ((i + 18) mod 32)))
         (Z.testbit x (i + 3))
  /\ Z.testbit (Finalizing_padding.sig_one x) i
     = xorb (xorb (Z.testbit x ((i + 17) mod 32)) (Z.testbit x ((i + 19) mod 32)))
         (Z.testbit x (i + 10))
  /\ in32 (Finalizing_padding.Sig0 x) /\ in32 (Finalizing_padding.Sig1 x)
  /\ in32 (Finalizing_padding.sig_zero x) /\ in32 (Finalizing_padding.sig_one x).
Proof.
  intros Hx Hi.
  unfold Finalizing_padding.Sig0, Finalizing_padding.Sig1, Finalizing_padding.sig_zero,
    Finalizing_padding.sig_one, Finalizing_padding.SHR.
  split; [|split; [|split; [|split; [|split; [|split; [|split]]]]]].
  - now rewrite !Z.lxor_spec, !testbit_ROTR by (assumption || lia).
  - now rewrite !Z.lxor_spec, !testbit_ROTR by (assumption || lia).
  - now rewrite !Z.lxor_spec, !testbit_ROTR, testbit_shr32 by (assumption || lia).
  - now rewrite !Z.lxor_spec, !testbit_ROTR, testbit_shr32 by (assumption || lia).
  - repeat apply lxor_in32; apply ROTR_in32; assumption || lia.
  - repeat apply lxor_in32; apply ROTR_in32; assumption || lia.
  - apply lxor_in32; [apply lxor_in32; apply ROTR_in32; assumption || lia|].
    apply shr32_in32; [assumption | lia].
  - apply lxor_in32; [apply lxor_in32; apply ROTR_in32; assumption || lia|].
    apply shr32_in32; [assumption | lia].
Qed.

Lemma X16_sigma_witness :
  Z.testbit (Finalizing_padding.Sig0 0x12345678) 30
  = xorb (xorb (Z.testbit 0x12345678 ((30 + 2) mod 32)) (Z.testbit 0x12345678 ((30 + 13) mod 32)))
      (Z.testbit 0x12345678 ((30 + 22) mod 32))
  /\ Z.testbit (Finalizing_padding.Sig1 0x12345678) 30
     = xorb (xorb (Z.testbit 0x12345678 ((30 + 6) mod 32))
               (Z.testbit 0x12345678 ((30 + 11) mod 32)))
         (Z.testbit 0x12345678 ((30 + 25) mod 32))
  /\ Z.testbit (Finalizing_padding.sig_zero 0x12345678) 30
     = xorb (xorb (Z.testbit 0x12345678 ((30 + 7) mod 32))
               (Z.testbit 0x12345678 ((30 + 18) mod 32)))
         (Z.testbit 0x12345678 (30 + 3))
  /\ Z.testbit (Finalizing_padding.sig_one 0x12345678) 30
     = xorb (xorb (Z.testbit 0x12345678 ((30 + 17) mod 32))
               (Z.testbit 0x12345678 ((30 + 19) mod 32)))
         (Z.testbit 0x12345678 (30 + 10))
  /\ in32 (Finalizing_padding.Sig0 0x12345678) /\ in32 (Finalizing_padding.Sig1 0x12345678)
  /\ in32 (Finalizing_padding.sig_zero 0x12345678)
  /\ in32 (Finalizing_padding.sig_one 0x12345678).
Proof.
  apply (X16_sigma_functions 0x12345678 30); unfold in32; lia.
Defined.
